(** * wren-ai-service/src/utils.py: a shallow embedding and its properties

    The module is a set of independent helpers: a logger factory, two timing
    decorators, [remove_trailing_slash], the Langfuse [trace_metadata]
    decorator and [remove_sql_summary_duplicates].  Each Python function is
    embedded under its own name.

    Conventions of the embedding:
    - a Python [str] is a Rocq [string] (its UTF-8 bytes); the only
      character the code inspects is the ASCII slash, and [str.upper] is
      modelled on ASCII strings, where it is the map a-z to A-Z: statements
      about level names are about ASCII names;
    - a [dict] with string keys is a [gmap string _] (Python compares dicts
      by their entries, not by insertion order), a [set] is a [gset];
    - a raised exception is the [Raise] outcome of a computation;
    - process-wide state (the logging registry, the settings object, the
      clock, the module logger's output, the Langfuse context) is a [world]
      threaded through the computations that touch it;
    - [await e] on a coroutine is run to completion where it stands: the
      wrappers add no suspension point of their own. *)

From stdpp Require Import base option list strings gmap.
From Stdlib Require Import ZArith Ascii.
From Stdlib Require String.

Local Open Scope Z_scope.

Set Warnings "-register-all".

(** ** Exceptions and outcomes *)

Inductive exn : Type :=
  | ValueError (msg : string)
  | KeyError (key : string)
  | IndexError
  | TypeError
  | AttributeError
  | AssertionError
  | OtherError (name : string).

Inductive outcome (A : Type) : Type :=
  | Return (a : A)
  | Raise (e : exn).
Arguments Return {A} a.
Arguments Raise {A} e.

Definition obind {A B} (c : outcome A) (k : A -> outcome B) : outcome B :=
  match c with
  | Return a => k a
  | Raise e => Raise e
  end.

Notation "'try' x <- c ; k" := (obind c (fun x => k))
  (at level 10, x name, c at level 100, k at level 200, only parsing).

(** ** Strings *)

Module Str.

(** [c in chars] for a one-character [c]. *)
Fixpoint char_in (c : ascii) (chars : string) : bool :=
  match chars with
  | EmptyString => false
  | String c' rest => if Ascii.eqb c c' then true else char_in c rest
  end.

(** [s.endswith(suffix)]: [s] is [suffix] or its tail ends with it. *)
Fixpoint endswith (s suffix : string) : bool :=
  if String.eqb s suffix then true
  else match s with
       | EmptyString => false
       | String _ s' => endswith s' suffix
       end.

(** [s.rstrip(chars)]: drops the longest suffix made of characters of
    [chars]. *)
Fixpoint rstrip (s chars : string) : string :=
  match s with
  | EmptyString => EmptyString
  | String c s' =>
      match rstrip s' chars with
      | EmptyString => if char_in c chars then EmptyString
                       else String c EmptyString
      | r => String c r
      end
  end.

(** [str.upper] on ASCII text. *)
Definition upper_char (c : ascii) : ascii :=
  let n := N_of_ascii c in
  if ((97 <=? n) && (n <=? 122))%N then ascii_of_N (n - 32) else c.

Fixpoint upper (s : string) : string :=
  match s with
  | EmptyString => EmptyString
  | String c s' => String (upper_char c) (upper s')
  end.

(** Whether every character is an ASCII one; on such strings [upper] is
    [str.upper]. *)
Fixpoint is_ascii (s : string) : bool :=
  match s with
  | EmptyString => true
  | String c s' => (N_of_ascii c <? 128)%N && is_ascii s'
  end.

(** [n] copies of the slash. *)
Fixpoint slashes (n : nat) : string :=
  match n with
  | O => EmptyString
  | S n' => String "/" (slashes n')
  end.

End Str.

(** ** remove_trailing_slash *)

Definition remove_trailing_slash (endpoint : string) : string :=
  if Str.endswith endpoint "/" then Str.rstrip endpoint "/" else endpoint.

(** ** Python values

    The values the tracing decorator handles: [None], integers, strings,
    dicts with string keys, and instances of plain classes (a request
    object), given by their data attributes. *)

Inductive pyval : Type :=
  | VNone
  | VInt (z : Z)
  | VStr (s : string)
  | VDict (d : gmap string pyval)
  | VObj (attrs : gmap string pyval).

(** [getattr(v, name)] when [hasattr(v, name)], for a data attribute
    [name]: only class instances carry the attributes the code probes. *)
Definition getattr (v : pyval) (name : string) : option pyval :=
  match v with
  | VObj attrs => attrs !! name
  | _ => None
  end.

Definition hasattr (v : pyval) (name : string) : bool :=
  bool_decide (is_Some (getattr v name)).

(** [d.get(key, default)] on a dict. *)
Definition dict_get (d : gmap string pyval) (key : string) (default : pyval)
  : pyval :=
  match d !! key with
  | Some v => v
  | None => default
  end.

(** [v.get(key)], a method call on an arbitrary value: a dict answers
    ([None] for a missing key); other builtins have no [get]; an instance
    has one only as a data attribute, which is not callable. *)
Definition method_get (v : pyval) (key : string) : outcome pyval :=
  match v with
  | VDict d => Return (dict_get d key VNone)
  | VObj attrs => if bool_decide (is_Some (attrs !! "get")) then Raise TypeError
                  else Raise AttributeError
  | _ => Raise AttributeError
  end.

(** [acc.update(other)]: entries of a dict [other] override those of [acc];
    the empty string is an empty iterable of pairs, a non-empty string
    yields one-character elements, anything else is not iterable. *)
Definition dict_update (acc : gmap string pyval) (other : pyval)
  : outcome (gmap string pyval) :=
  match other with
  | VDict d => Return (d ∪ acc)
  | VStr EmptyString => Return acc
  | VStr _ => Raise (ValueError "dictionary update sequence element #0 has length 1; 2 is required")
  | _ => Raise TypeError
  end.

(** The unpacking [**other] inside a dict display: [other] must be a
    mapping. *)
Definition dict_unpack (acc : gmap string pyval) (other : pyval)
  : outcome (gmap string pyval) :=
  match other with
  | VDict d => Return (d ∪ acc)
  | _ => Raise TypeError
  end.

(** ** Process-wide state *)

Inductive formatter : Type := CustomFormatter.

Inductive handler : Type := StreamHandler (fmt : formatter).

Record logger : Type := {
  level : Z;
  handlers : list handler
}.

(** One [logger.info] line of a timing decorator: the callable's qualified
    name and [endTime - startTime]. *)
Record log_record : Type := {
  log_qualname : string;
  log_elapsed : Z
}.

(** One call of [langfuse_context.update_current_trace]. *)
Record trace_update : Type := {
  user_id : pyval;
  session_id : pyval;
  release : pyval;
  metadata : gmap string pyval
}.

Record world : Type := {
  nameToLevel : gmap string Z;      (* logging._nameToLevel *)
  loggers : gmap string logger;     (* the loggers logging.getLogger knows *)
  enable_timer : bool;              (* settings.enable_timer *)
  clock : nat -> Z;                 (* the n-th reading of time.perf_counter *)
  clock_reads : nat;
  log_lines : list log_record;      (* what the module logger was told *)
  trace_updates : list trace_update (* what the Langfuse context was told *)
}.

(** The table as the logging module of CPython initialises it. *)
Definition cpython_nameToLevel : gmap string Z :=
  {[ "CRITICAL" := 50; "FATAL" := 50; "ERROR" := 40; "WARN" := 30;
     "WARNING" := 30; "INFO" := 20; "DEBUG" := 10; "NOTSET" := 0 ]}.

(** Computations on the world. *)
Definition M (A : Type) : Type := world -> outcome A * world.

Definition ret {A} (a : A) : M A := fun w => (Return a, w).

Definition raise {A} (e : exn) : M A := fun w => (Raise e, w).

Definition bind {A B} (c : M A) (k : A -> M B) : M B :=
  fun w => match c w with
           | (Return a, w') => k a w'
           | (Raise e, w') => (Raise e, w')
           end.

Definition lift {A} (o : outcome A) : M A := fun w => (o, w).

Notation "'do' x <- c ; k" := (bind c (fun x => k))
  (at level 10, x name, c at level 100, k at level 200, only parsing).

(** [settings.enable_timer], read when the wrapper runs. *)
Definition read_enable_timer : M bool := fun w => (Return (enable_timer w), w).

(** [time.perf_counter()]. *)
Definition perf_counter : M Z :=
  fun w => (Return (clock w (clock_reads w)),
            {| nameToLevel := nameToLevel w; loggers := loggers w;
               enable_timer := enable_timer w; clock := clock w;
               clock_reads := S (clock_reads w);
               log_lines := log_lines w;
               trace_updates := trace_updates w |}).

(** [logger.info(f"{qualname} Elapsed time: {elapsed:0.4f} seconds")]. *)
Definition logger_info (r : log_record) : M unit :=
  fun w => (Return tt,
            {| nameToLevel := nameToLevel w; loggers := loggers w;
               enable_timer := enable_timer w; clock := clock w;
               clock_reads := clock_reads w;
               log_lines := log_lines w ++ [r];
               trace_updates := trace_updates w |}).

(** [langfuse_context.update_current_trace(...)]. *)
Definition update_current_trace (u : trace_update) : M unit :=
  fun w => (Return tt,
            {| nameToLevel := nameToLevel w; loggers := loggers w;
               enable_timer := enable_timer w; clock := clock w;
               clock_reads := clock_reads w;
               log_lines := log_lines w;
               trace_updates := trace_updates w ++ [u] |}).

(** ** setup_custom_logger *)

Definition with_loggers (f : gmap string logger -> gmap string logger)
  (w : world) : world :=
  {| nameToLevel := nameToLevel w; loggers := f (loggers w);
     enable_timer := enable_timer w; clock := clock w;
     clock_reads := clock_reads w; log_lines := log_lines w;
     trace_updates := trace_updates w |}.

(** A logger as [logging.getLogger] creates it: level NOTSET, no handler. *)
Definition new_logger : logger := {| level := 0; handlers := [] |}.

(** [logging.getLogger(name)]: the logger registered under [name], created
    and registered on first use.  The handle is the name.  The registry is
    read one name at a time: that the empty name (and "root", from Python
    3.9 on) stands for the root logger is not modelled, so the statements
    below follow one name and relate no two. *)
Definition getLogger (name : string) : M string :=
  fun w => (Return name,
            with_loggers (fun reg => match reg !! name with
                                     | Some _ => reg
                                     | None => <[name := new_logger]> reg
                                     end) w).

(** [logger.setLevel(level)]. *)
Definition setLevel (lg : string) (lvl : Z) : M unit :=
  fun w => (Return tt,
            with_loggers (alter (fun l => {| level := lvl;
                                             handlers := handlers l |}) lg) w).

(** [logger.addHandler(handler)]. *)
Definition addHandler (lg : string) (h : handler) : M unit :=
  fun w => (Return tt,
            with_loggers (alter (fun l => {| level := level l;
                                             handlers := handlers l ++ [h] |}) lg) w).

(** The state of the logger a handle names. *)
Definition logger_of (w : world) (lg : string) : option logger :=
  loggers w !! lg.

Definition setup_custom_logger (name level_str : string) : M string :=
  let level_str := Str.upper level_str in
  fun w =>
    match nameToLevel w !! level_str with
    | None => raise (ValueError ("Invalid logging level: " +:+ level_str)) w
    | Some level =>
        let handler := StreamHandler CustomFormatter in
        (do logger <- getLogger name;
         do _ <- setLevel logger level;
         do _ <- addHandler logger handler;
         ret logger) w
    end.

(** ** timer and async_timer *)

(** A callable as [timer] uses it: its [__qualname__], if it has one (a
    [functools.partial] object or an instance of a class with [__call__]
    has none), and what the plain call of it on [args] and [kwargs] does
    and yields.  For a coroutine function that call only creates the
    coroutine object, a value like any other here. *)
Record invocable : Type := {
  inv_qualname : option string;
  invoke : list pyval -> gmap string pyval -> M pyval
}.

(** A callable as the asynchronous wrappers use it: its [__qualname__], if
    it has one; whether [asyncio.iscoroutinefunction] holds of it; whether
    what its call yields can be awaited (a function defined with [async def]
    yields a coroutine, a plain function may yield anything); and what the
    call does and yields when run to its end: the awaited value when the
    call yields an awaitable, the value of the call itself otherwise. *)
Record callable : Type := {
  qualname : option string;
  iscoroutinefunction : bool;
  awaitable : bool;
  call : list pyval -> gmap string pyval -> M pyval
}.

(** The awaited call of [func] on [args] and [kwargs], as the asynchronous
    wrappers write it: the call is made, and awaiting what it yields raises
    [TypeError] when that is no awaitable. *)
Definition await_call (func : callable)
  (args : list pyval) (kwargs : gmap string pyval) : M pyval :=
  if awaitable func then call func args kwargs
  else do _ <- call func args kwargs; raise TypeError.

(** [func.__qualname__] inside the f-string of the log line. *)
Definition qualname_of (name : option string) : M string :=
  match name with
  | Some n => ret n
  | None => raise AttributeError
  end.

Module timer.

Definition wrapper_timer (func : invocable)
  (args : list pyval) (kwargs : gmap string pyval) : M pyval :=
  do enabled <- read_enable_timer;
  if enabled then
    do startTime <- perf_counter;
    do result <- invoke func args kwargs;
    do endTime <- perf_counter;
    let elapsed_time := endTime - startTime in
    do name <- qualname_of (inv_qualname func);
    do _ <- logger_info {| log_qualname := name;
                           log_elapsed := elapsed_time |};
    ret result
  else invoke func args kwargs.

End timer.

(** The decorated function: [functools.wraps] only copies attributes onto
    the wrapper. *)
Definition timer (func : invocable)
  : list pyval -> gmap string pyval -> M pyval :=
  timer.wrapper_timer func.

Module async_timer.

(** [process] takes the callable as its first positional parameter, named
    [func]: the call [process(func, *args, **kwargs)] cannot bind a keyword
    argument of that name and raises [TypeError] before the body runs. *)
Definition process (func : callable)
  (args : list pyval) (kwargs : gmap string pyval) : M pyval :=
  if bool_decide (is_Some (kwargs !! "func")) then raise TypeError
  else if iscoroutinefunction func then await_call func args kwargs
  else raise AssertionError.

Definition wrapper_timer (func : callable)
  (args : list pyval) (kwargs : gmap string pyval) : M pyval :=
  do enabled <- read_enable_timer;
  if enabled then
    do startTime <- perf_counter;
    do result <- process func args kwargs;
    do endTime <- perf_counter;
    let elapsed_time := endTime - startTime in
    do name <- qualname_of (qualname func);
    do _ <- logger_info {| log_qualname := name;
                           log_elapsed := elapsed_time |};
    ret result
  else process func args kwargs.

End async_timer.

(** The decorated function is a coroutine function; [functools.wraps] gives
    it the qualified name of [func] when [func] has one, and leaves it its
    own otherwise. *)
Definition async_timer (func : callable) : callable :=
  {| qualname := Some (default "async_timer.<locals>.wrapper_timer"
                         (qualname func));
     iscoroutinefunction := true;
     awaitable := true;
     call := async_timer.wrapper_timer func |}.

(** ** trace_metadata *)

Module trace_metadata.

(** [if hasattr(request, name): metadata[name] = getattr(request, name)]. *)
Definition copy_attr (request : pyval) (name : string)
  (metadata : gmap string pyval) : gmap string pyval :=
  if hasattr request name
  then <[name := default VNone (getattr request name)]> metadata
  else metadata.

Definition extract (args : list pyval) : outcome (gmap string pyval) :=
  match args !! 1%nat with
  | None => Raise IndexError
  | Some request =>
      let metadata := ∅ in
      let metadata := copy_attr request "project_id" metadata in
      let metadata := copy_attr request "thread_id" metadata in
      let metadata := copy_attr request "mdl_hash" metadata in
      let metadata := copy_attr request "user_id" metadata in
      Return metadata
  end.

(** The default of [kwargs.get("service_metadata", ...)]. *)
Definition default_service_metadata : pyval :=
  VDict {[ "pipes_metadata" := VDict ∅; "service_version" := VStr "" ]}.

Definition wrapper (func : callable)
  (args : list pyval) (kwargs : gmap string pyval) : M pyval :=
  do results <- await_call func args kwargs;
  let addition := ∅ in
  do addition <- lift match results with
                      | VDict d => (* isinstance(results, dict) *)
                          let additional_metadata :=
                            dict_get d "metadata" (VDict ∅) in
                          dict_update addition additional_metadata
                      | _ => Return addition
                      end;
  do metadata <- lift (extract args);
  let service_metadata :=
    dict_get kwargs "service_metadata" default_service_metadata in
  do langfuse_metadata <- lift (
    try pipes_metadata <- method_get service_metadata "pipes_metadata";
    try display <- dict_unpack ∅ pipes_metadata;
    try display <- dict_unpack display (VDict addition);
    let display := <["mdl_hash" := dict_get metadata "mdl_hash" VNone]> display in
    let display := <["project_id" := dict_get metadata "project_id" VNone]> display in
    Return display);
  do release <- lift (method_get service_metadata "service_version");
  do _ <- update_current_trace
            {| user_id := dict_get metadata "user_id" VNone;
               session_id := dict_get metadata "thread_id" VNone;
               release := release;
               metadata := langfuse_metadata |};
  ret results.

End trace_metadata.

Definition trace_metadata (func : callable) : callable :=
  {| qualname := Some (default "trace_metadata.<locals>.wrapper"
                         (qualname func));
     iscoroutinefunction := true;
     awaitable := true;
     call := trace_metadata.wrapper func |}.

(** ** remove_sql_summary_duplicates *)

Section Dedup.

(** The field values: hashable, compared by value (strings in the
    service). *)
Context {V : Type} `{Countable V}.

(** [d[key]]. *)
Definition getitem (d : gmap string V) (key : string) : outcome V :=
  match d !! key with
  | Some v => Return v
  | None => Raise (KeyError key)
  end.

(** The [for] loop, from the state [(seen, unique_dicts)] on. *)
Fixpoint dedup_loop (seen : gset (V * V)) (unique_dicts : list (gmap string V))
  (dicts : list (gmap string V)) : outcome (list (gmap string V)) :=
  match dicts with
  | [] => Return unique_dicts
  | d :: rest =>
      try sql <- getitem d "sql";
      try summary <- getitem d "summary";
      let identifier := (sql, summary) in
      if decide (identifier ∉ seen) then
        dedup_loop ({[identifier]} ∪ seen) (unique_dicts ++ [d]) rest
      else dedup_loop seen unique_dicts rest
  end.

Definition remove_sql_summary_duplicates (dicts : list (gmap string V))
  : outcome (list (gmap string V)) :=
  let seen := ∅ in
  let unique_dicts := [] in
  dedup_loop seen unique_dicts dicts.

(** *** The helper as the specification words it *)

(** The (sql, summary) pair of a record, when it has both fields. *)
Definition identifier (d : gmap string V) : option (V * V) :=
  match d !! "sql", d !! "summary" with
  | Some sql, Some summary => Some (sql, summary)
  | _, _ => None
  end.

Definition has_fields (d : gmap string V) : Prop :=
  is_Some (d !! "sql") ∧ is_Some (d !! "summary").

(** The record at position [i] is kept when no record before it has its
    pair. *)
Definition first_of_its_pair (dicts : list (gmap string V))
  (p : nat * gmap string V) : Prop :=
  identifier p.2 ∉ identifier <$> take p.1 dicts.

#[local] Instance first_of_its_pair_dec dicts p :
  Decision (first_of_its_pair dicts p).
Proof. unfold first_of_its_pair. apply _. Defined.

Definition first_occurrences (dicts : list (gmap string V))
  : list (gmap string V) :=
  (filter (first_of_its_pair dicts) (imap pair dicts)).*2.

(** The same with records already met: those kept among [rest] when
    [earlier] came before them. *)
Definition firsts_from (earlier rest : list (gmap string V))
  : list (gmap string V) :=
  (filter (fun p => identifier p.2 ∉ identifier <$> (earlier ++ take p.1 rest))
     (imap pair rest)).*2.

End Dedup.

(** ** Reference data for the statements *)

(** The level names the specification lists. *)
Definition documented_levels : list string :=
  ["DEBUG"; "INFO"; "WARNING"; "ERROR"; "CRITICAL"].

(** The keys of [cpython_nameToLevel]. *)
Definition cpython_levels : list string :=
  ["CRITICAL"; "FATAL"; "ERROR"; "WARN"; "WARNING"; "INFO"; "DEBUG"; "NOTSET"].

(** A process right after start: the logging table as CPython ships it, no
    logger registered, nothing logged or traced yet; the clock ticks once
    per reading. *)
Definition fresh_world (enable : bool) : world :=
  {| nameToLevel := cpython_nameToLevel; loggers := ∅;
     enable_timer := enable; clock := fun n => Z.of_nat n;
     clock_reads := 0; log_lines := []; trace_updates := [] |}.

(** A callable that returns [v] whatever it is given and touches nothing:
    a coroutine function when [is_async], a plain function otherwise. *)
Definition const_callable (is_async : bool) (v : pyval) : callable :=
  {| qualname := Some "AskService.ask";
     iscoroutinefunction := is_async;
     awaitable := is_async;
     call := fun _ _ => ret v |}.

(** The same seen through its plain call, and a [functools.partial] of it,
    which has no [__qualname__]. *)
Definition const_function (v : pyval) : invocable :=
  {| inv_qualname := Some "AskService.ask";
     invoke := fun _ _ => ret v |}.

Definition partial_function (v : pyval) : invocable :=
  {| inv_qualname := None;
     invoke := fun _ _ => ret v |}.

(** The world the wrapped callable sees in a timing wrapper: the clock has
    been read once when timing is enabled. *)
Definition world_at_call (w : world) : world :=
  if enable_timer w then (perf_counter w).2 else w.

(** The attributes the tracing decorator probes on the request. *)
Definition identifying_attributes : list string :=
  ["project_id"; "thread_id"; "mdl_hash"; "user_id"].

(** (a) of the merge, in the specification's words: the [pipes_metadata]
    mapping of the [service_metadata] keyword argument, empty when there is
    none. *)
Definition pipes_metadata_of (kwargs : gmap string pyval) : gmap string pyval :=
  match kwargs !! "service_metadata" with
  | Some (VDict sm) =>
      match sm !! "pipes_metadata" with
      | Some (VDict pipes) => pipes
      | _ => ∅
      end
  | _ => ∅
  end.

(** (b) of the merge: the [metadata] sub-mapping of a result that is a
    mapping, empty otherwise. *)
Definition result_metadata (results : pyval) : gmap string pyval :=
  match results with
  | VDict d =>
      match d !! "metadata" with
      | Some (VDict m) => m
      | _ => ∅
      end
  | _ => ∅
  end.

(** Keyword arguments the wrapper can read: no [service_metadata], or a
    dict whose [pipes_metadata] is a dict. *)
Definition service_metadata_ok (kwargs : gmap string pyval) : bool :=
  match kwargs !! "service_metadata" with
  | None => true
  | Some (VDict sm) =>
      match sm !! "pipes_metadata" with
      | Some (VDict _) => true
      | _ => false
      end
  | Some _ => false
  end.

(** Results the wrapper can read: anything that is not a dict, and a dict
    whose [metadata], if any, is a dict. *)
Definition result_metadata_ok (results : pyval) : bool :=
  match results with
  | VDict d =>
      match d !! "metadata" with
      | None | Some (VDict _) => true
      | Some _ => false
      end
  | _ => true
  end.

(** The merge in the specification's words, read at one key: (c) the
    model-hash and project identifiers win over (b) the result's metadata,
    which wins over (a) the pipes metadata. *)
Definition merged_lookup (a b : gmap string pyval) (mdl_hash project_id : pyval)
  (k : string) : option pyval :=
  if decide (k = "project_id") then Some project_id
  else if decide (k = "mdl_hash") then Some mdl_hash
  else match b !! k with
       | Some v => Some v
       | None => a !! k
       end.

(** The arguments of the examples: a service object, then the request. *)
Definition example_request : pyval :=
  VObj {[ "project_id" := VStr "p1"; "query" := VStr "top customers" ]}.

Definition example_args : list pyval := [VObj ∅; example_request].

Definition example_kwargs : gmap string pyval :=
  {[ "service_metadata" :=
       VDict {[ "pipes_metadata" :=
                  VDict {[ "k" := VStr "from pipes";
                           "mdl_hash" := VStr "from pipes";
                           "llm" := VStr "gpt" ]};
                "service_version" := VStr "0.8" ]} ]}.

Definition example_results : pyval :=
  VDict {[ "metadata" := VDict {[ "k" := VStr "v";
                                  "project_id" := VStr "from results" ]} ]}.

(** A service object that happens to carry a [project_id] of its own. *)
Definition example_receiver : pyval :=
  VObj {[ "project_id" := VStr "of the service" ]}.

(** The records of the specification's dedup example. *)
Definition example_dicts : list (gmap string string) :=
  [ {[ "sql" := "A"; "summary" := "x" ]};
    {[ "sql" := "A"; "summary" := "x" ]};
    {[ "sql" := "B"; "summary" := "x" ]} ].

(** A record without its [summary]. *)
Definition example_incomplete : gmap string string := {[ "sql" := "C" ]}.

(** ** CustomFormatter *)

Module CustomFormatter.

(** The escape character that opens an ANSI colour sequence. *)
Definition esc : string := String "027" EmptyString.

Definition grey : string := esc +:+ "[38;20m".
Definition yellow : string := esc +:+ "[33;20m".
Definition red : string := esc +:+ "[31;20m".
Definition bold_red : string := esc +:+ "[31;1m".
Definition reset : string := esc +:+ "[0m".

(** The class attribute [format], a template. *)
Definition format_template : string :=
  "%(asctime)s - %(name)s - %(levelname)s - %(message)s (%(filename)s:%(lineno)d)".

(** The numeric levels of the logging module. *)
Definition DEBUG : Z := 10.
Definition INFO : Z := 20.
Definition WARNING : Z := 30.
Definition ERROR : Z := 40.
Definition CRITICAL : Z := 50.

Definition FORMATS : gmap Z string :=
  {[ DEBUG := yellow +:+ format_template +:+ reset;
     INFO := grey +:+ format_template +:+ reset;
     WARNING := yellow +:+ format_template +:+ reset;
     ERROR := red +:+ format_template +:+ reset;
     CRITICAL := bold_red +:+ format_template +:+ reset ]}.

(** The first line of the method [format]: [self.FORMATS.get(record.levelno)],
    the template handed to [logging.Formatter] ([None] lets that class fall
    back on its own default). *)
Definition log_fmt (levelno : Z) : option string := FORMATS !! levelno.

End CustomFormatter.

(** ** Further reference data *)

(** A clock that never runs backwards. *)
Definition monotone_clock (w : world) : Prop :=
  forall i j : nat, (i <= j)%nat -> clock w i <= clock w j.

(** The world after a timed call that returned: the clock read once more
    and one line logged. *)
Definition after_timed (name : string) (w w1 : world) : world :=
  {| nameToLevel := nameToLevel w1; loggers := loggers w1;
     enable_timer := enable_timer w1; clock := clock w1;
     clock_reads := S (clock_reads w1);
     log_lines := log_lines w1
                  ++ [{| log_qualname := name;
                         log_elapsed := clock w1 (clock_reads w1)
                                        - clock w (clock_reads w) |}];
     trace_updates := trace_updates w1 |}.

(** The release tag the wrapper passes on: the [service_version] of the
    [service_metadata] keyword argument, the empty string without that
    argument. *)
Definition release_of (kwargs : gmap string pyval) : pyval :=
  match kwargs !! "service_metadata" with
  | Some (VDict sm) => default VNone (sm !! "service_version")
  | _ => VStr ""
  end.

(** Values that are neither a mapping nor a string. *)
Definition not_iterable (v : pyval) : bool :=
  match v with
  | VNone | VInt _ | VObj _ => true
  | VStr _ | VDict _ => false
  end.

(** A callable that raises [e] whatever it is given and touches nothing. *)
Definition raising_callable (is_async : bool) (e : exn) : callable :=
  {| qualname := Some "AskService.ask";
     iscoroutinefunction := is_async;
     awaitable := is_async;
     call := fun _ _ => raise e |}.

Definition raising_function (e : exn) : invocable :=
  {| inv_qualname := Some "AskService.ask";
     invoke := fun _ _ => raise e |}.

(** Two records with different pairs, and one with the pair of the first. *)
Definition example_distinct : list (gmap string string) :=
  [ {[ "sql" := "A"; "summary" := "x" ]};
    {[ "sql" := "A"; "summary" := "y" ]} ].

Definition example_repeat : gmap string string :=
  {[ "sql" := "A"; "summary" := "x"; "note" := "again" ]}.

(** A record without its [sql]. *)
Definition example_no_sql : gmap string string := {[ "summary" := "x" ]}.

(** * Properties *)

(** ** remove_trailing_slash *)

Section TrailingSlash.

#[local] Arguments String.append !_ _ / : simpl nomatch.

Lemma char_in_slash c : Str.char_in c "/" = Ascii.eqb c "/".
Proof. simpl. by destruct (Ascii.eqb c "/"). Qed.

Lemma app_empty_r (s : string) : s +:+ "" = s.
Proof. induction s as [|c s IH]; simpl; [done | by rewrite IH]. Qed.

(** [endswith] on the one-character suffix is what it should be. *)
Lemma endswith_slash_iff s :
  Str.endswith s "/" = true <-> exists p, s = p +:+ "/".
Proof.
  induction s as [|c s IH].
  - simpl. split; [done | intros [[|? ?] Hp]; simplify_eq/=].
  - cbn [Str.endswith].
    destruct (String.eqb_spec (String c s) "/") as [He | Hne].
    + split; [intros _ | done]. exists "". by rewrite He.
    + rewrite IH. split.
      * intros [p ->]. by exists (String c p).
      * intros [[|c' p] Hp]; simpl in Hp; [done |].
        simplify_eq. by exists p.
Qed.

Lemma endswith_slash_false s :
  Str.endswith s "/" = false <-> forall p, s <> p +:+ "/".
Proof.
  rewrite <- not_true_iff_false, endswith_slash_iff. split.
  - intros Hn p ->. apply Hn. by exists p.
  - intros Hn [p ->]. by apply (Hn p).
Qed.

Lemma rstrip_slashes n : Str.rstrip (Str.slashes n) "/" = "".
Proof. induction n as [|n IH]; simpl; [done | by rewrite IH]. Qed.

Lemma rstrip_decompose s : exists n, s = Str.rstrip s "/" +:+ Str.slashes n.
Proof.
  induction s as [|c s [n IH]]; [by exists O |].
  cbn [Str.rstrip]. destruct (Str.rstrip s "/") as [|c' r] eqn:Hr.
  - rewrite char_in_slash. destruct (Ascii.eqb_spec c "/") as [-> | Hc].
    + exists (S n). simpl in *. by rewrite IH at 1.
    + exists n. simpl in *. by rewrite IH at 1.
  - exists n. simpl in *. by rewrite IH at 1.
Qed.

Lemma rstrip_not_endswith s : Str.endswith (Str.rstrip s "/") "/" = false.
Proof.
  induction s as [|c s IH]; [done |].
  cbn [Str.rstrip]. destruct (Str.rstrip s "/") as [|c' r] eqn:Hr.
  - rewrite char_in_slash. destruct (Ascii.eqb_spec c "/") as [-> | Hc]; [done |].
    cbn [Str.endswith].
    destruct (String.eqb_spec (String c "") "/") as [He | _]; [congruence | done].
  - cbn [Str.endswith].
    by destruct (String.eqb_spec (String c (String c' r)) "/") as [He | _].
Qed.

Lemma rstrip_app_slashes p n :
  Str.endswith p "/" = false -> Str.rstrip (p +:+ Str.slashes n) "/" = p.
Proof.
  induction p as [|c p IH]; intros Hp; [apply rstrip_slashes |].
  cbn [Str.endswith] in Hp.
  destruct (String.eqb_spec (String c p) "/") as [He | Hne]; [done |].
  simpl. rewrite (IH Hp). destruct p as [|c' p]; [| done].
  destruct (Ascii.eqb_spec c "/") as [-> | Hc]; done.
Qed.

Lemma remove_trailing_slash_rstrip s :
  remove_trailing_slash s = Str.rstrip s "/".
Proof.
  unfold remove_trailing_slash.
  destruct (Str.endswith s "/") eqn:He; [done |].
  rewrite <- (app_empty_r s) at 2. symmetry.
  by apply (rstrip_app_slashes s O).
Qed.

End TrailingSlash.

(** C10. For every string [s], [remove_trailing_slash s] is [s] with all of
    its trailing slashes removed: [s] is the result followed by slashes
    only, the result does not end with a slash (so it is the one
    decomposition of that kind), the operation is idempotent, and a string
    that does not end with a slash comes back unchanged. *)
Theorem remove_trailing_slash_spec (s : string) :
  let r := remove_trailing_slash s in
  (exists n, s = r +:+ Str.slashes n) /\
  (forall p, r <> p +:+ "/") /\
  (forall p n, s = p +:+ Str.slashes n -> (forall q, p <> q +:+ "/") -> r = p) /\
  remove_trailing_slash r = r /\
  ((forall p, s <> p +:+ "/") -> r = s).
Proof.
  cbn zeta. rewrite !remove_trailing_slash_rstrip.
  split; [apply rstrip_decompose |].
  split; [apply endswith_slash_false, rstrip_not_endswith |].
  split.
  { intros p n -> Hp. by apply rstrip_app_slashes, endswith_slash_false. }
  split.
  - rewrite <- (app_empty_r (Str.rstrip s "/")) at 1.
    apply (rstrip_app_slashes _ O), rstrip_not_endswith.
  - intros Hs. rewrite <- (app_empty_r s) at 1.
    by apply (rstrip_app_slashes s O), endswith_slash_false.
Qed.

(** More than one slash goes: three of them here. *)
Lemma remove_trailing_slash_spec_witness :
  remove_trailing_slash "http://host/api///" = "http://host/api" /\
  remove_trailing_slash "http://host/api" = "http://host/api".
Proof.
  pose proof (remove_trailing_slash_spec "http://host/api///") as (_ & _ & Hu & _).
  pose proof (remove_trailing_slash_spec "http://host/api") as (_ & _ & _ & _ & Hs).
  split.
  - apply (Hu "http://host/api" 3%nat); [reflexivity |].
    apply endswith_slash_false. reflexivity.
  - apply Hs. apply endswith_slash_false. reflexivity.
Defined.

(** ** setup_custom_logger *)

Lemma cpython_nameToLevel_keys (k : string) :
  is_Some (cpython_nameToLevel !! k) <-> k ∈ cpython_levels.
Proof.
  rewrite <- elem_of_dom. unfold cpython_nameToLevel, cpython_levels.
  rewrite !dom_insert_L, dom_singleton_L.
  rewrite !elem_of_union, !elem_of_singleton, !elem_of_cons, elem_of_nil.
  tauto.
Qed.

(** C2, amended. On an ASCII level name, the logger factory succeeds exactly
    when the upper-cased name is a key of the logging module's name-to-level
    table; it then registers the logger under its name, sets its level to
    the table's value and appends one stream handler.  For any other ASCII
    string it raises [ValueError] and changes nothing.  With the table
    CPython ships, the keys are the eight names of [cpython_levels]. *)
Theorem setup_custom_logger_spec (name level_str : string) (w : world) :
  Str.is_ascii level_str = true ->
  match nameToLevel w !! Str.upper level_str with
  | Some lvl =>
      exists w', setup_custom_logger name level_str w = (Return name, w') /\
        logger_of w' name =
          Some {| level := lvl;
                  handlers := handlers (default new_logger (logger_of w name))
                              ++ [StreamHandler CustomFormatter] |} /\
        nameToLevel w' = nameToLevel w
  | None =>
      setup_custom_logger name level_str w =
        (Raise (ValueError ("Invalid logging level: " +:+ Str.upper level_str)), w)
  end /\
  (nameToLevel w = cpython_nameToLevel ->
   ((exists lg w', setup_custom_logger name level_str w = (Return lg, w'))
    <-> Str.upper level_str ∈ cpython_levels)).
Proof.
  intros _.
  assert (Hmain :
    match nameToLevel w !! Str.upper level_str with
    | Some lvl =>
        exists w', setup_custom_logger name level_str w = (Return name, w') /\
          logger_of w' name =
            Some {| level := lvl;
                    handlers := handlers (default new_logger (logger_of w name))
                                ++ [StreamHandler CustomFormatter] |} /\
          nameToLevel w' = nameToLevel w
    | None =>
        setup_custom_logger name level_str w =
          (Raise (ValueError ("Invalid logging level: " +:+ Str.upper level_str)), w)
    end).
  { unfold setup_custom_logger.
    destruct (nameToLevel w !! Str.upper level_str) as [lvl|] eqn:Hlvl; [| done].
    eexists. split; [reflexivity |].
    unfold logger_of. simpl. split; [| done].
    rewrite !lookup_alter_eq.
    destruct (loggers w !! name) as [lg|] eqn:Hl; simpl.
    - by rewrite Hl.
    - by rewrite lookup_insert_eq. }
  split; [exact Hmain |].
  intros Htable. rewrite <- cpython_nameToLevel_keys, <- Htable.
  destruct (nameToLevel w !! Str.upper level_str) as [lvl|] eqn:Hlvl.
  - destruct Hmain as (w' & Hrun & _). split; [by eauto | intros _; eauto].
  - rewrite Hmain. split; [intros (lg & w' & Heq); congruence |].
    intros [? ?]; congruence.
Qed.

(** WARN is accepted in lower case on a fresh process, and the logger gets
    level 30. *)
Lemma setup_custom_logger_spec_witness :
  Str.is_ascii "warn" = true /\
  nameToLevel (fresh_world false) = cpython_nameToLevel /\
  Str.upper "warn" ∈ cpython_levels /\
  exists lg w', setup_custom_logger "wren-ai-service" "warn" (fresh_world false)
                = (Return lg, w').
Proof.
  split; [reflexivity |]. split; [reflexivity |].
  assert (Hk : Str.upper "warn" ∈ cpython_levels).
  { apply cpython_nameToLevel_keys. by eexists. }
  split; [exact Hk |].
  destruct (setup_custom_logger_spec "wren-ai-service" "warn" (fresh_world false)
              eq_refl) as [_ Hiff].
  apply (Hiff eq_refl). exact Hk.
Defined.

(** C2 as stated fails: "warn" is none of the five documented names in any
    case, yet the factory succeeds on it and sets level 30; so do "fatal"
    and "notset". *)
Lemma setup_custom_logger_five_names_counterexample :
  (Str.upper "warn" ∉ documented_levels) /\
  exists w', setup_custom_logger "wren-ai-service" "warn" (fresh_world false)
             = (Return "wren-ai-service", w') /\
           (level <$> logger_of w' "wren-ai-service") = Some 30.
Proof.
  split.
  - unfold documented_levels. simpl. rewrite !elem_of_cons, elem_of_nil.
    intros H. repeat destruct H as [H | H]; done.
  - eexists. split; [reflexivity |]. vm_compute. reflexivity.
Qed.

(** ** timer and async_timer *)

Lemma timer_outcome (func : invocable) args kwargs w :
  (enable_timer w = true -> is_Some (inv_qualname func)) ->
  (timer.wrapper_timer func args kwargs w).1
  = (invoke func args kwargs (world_at_call w)).1.
Proof.
  unfold timer.wrapper_timer, world_at_call, bind, read_enable_timer.
  destruct (enable_timer w); [| done]. intros Hname.
  destruct (Hname eq_refl) as [name ->]. simpl.
  by destruct (invoke func args kwargs _) as [[v|e] w1].
Qed.

Lemma await_call_awaitable func args kwargs :
  awaitable func = true -> await_call func args kwargs = call func args kwargs.
Proof. unfold await_call. by intros ->. Qed.

Lemma process_coroutine func args kwargs :
  kwargs !! "func" = None ->
  iscoroutinefunction func = true ->
  async_timer.process func args kwargs = await_call func args kwargs.
Proof. unfold async_timer.process. by intros -> ->. Qed.


Lemma process_keyword_func func args kwargs w :
  is_Some (kwargs !! "func") ->
  async_timer.process func args kwargs w = (Raise TypeError, w).
Proof.
  unfold async_timer.process. intros Hkw. by rewrite bool_decide_eq_true_2.
Qed.

Lemma async_timer_outcome func args kwargs w :
  (enable_timer w = true -> is_Some (qualname func)) ->
  (async_timer.wrapper_timer func args kwargs w).1
  = (async_timer.process func args kwargs (world_at_call w)).1.
Proof.
  unfold async_timer.wrapper_timer, world_at_call, bind, read_enable_timer.
  destruct (enable_timer w); [| done]. intros Hname.
  destruct (Hname eq_refl) as [name ->]. simpl.
  by destruct (async_timer.process func args kwargs _) as [[v|e] w1].
Qed.

(** C5, amended. The wrapper of [timer] ends as the wrapped callable does
    on the same arguments (the same value returned, or the same exception),
    for every callable and every argument list when [enable_timer] is off,
    and when it is on for every callable that has a [__qualname__].  The
    wrapper of [async_timer] does so, under the same condition on
    [__qualname__], around every coroutine function whose call yields an
    awaitable, on every argument list without a keyword argument named
    [func].  The callable runs in the world the wrapper found, after one
    clock reading when timing is on. *)
Theorem timers_return_result (f : invocable) (func : callable)
  (args : list pyval) (kwargs : gmap string pyval) (w : world) :
  ((enable_timer w = true -> is_Some (inv_qualname f)) ->
   (timer f args kwargs w).1
     = (invoke f args kwargs (world_at_call w)).1) /\
  ((enable_timer w = true -> is_Some (qualname func)) ->
   iscoroutinefunction func = true ->
   awaitable func = true ->
   kwargs !! "func" = None ->
   (call (async_timer func) args kwargs w).1
     = (call func args kwargs (world_at_call w)).1).
Proof.
  split; [apply timer_outcome |].
  intros Hname Hco Haw Hkw. simpl. rewrite async_timer_outcome by done.
  rewrite process_coroutine by done. by rewrite await_call_awaitable.
Qed.

(** With timing on and with timing off, both wrappers hand back 42 from a
    callable that returns 42. *)
Lemma timers_return_result_witness :
  (timer (const_function (VInt 42)) [] ∅ (fresh_world true)).1
    = Return (VInt 42) /\
  (timer (const_function (VInt 42)) [] ∅ (fresh_world false)).1
    = Return (VInt 42) /\
  (call (async_timer (const_callable true (VInt 42))) [] ∅ (fresh_world true)).1
    = Return (VInt 42) /\
  (call (async_timer (const_callable true (VInt 42))) [] ∅ (fresh_world false)).1
    = Return (VInt 42).
Proof.
  split; [| split; [| split]].
  - apply (proj1 (timers_return_result (const_function (VInt 42))
                    (const_callable true (VInt 42)) [] ∅ (fresh_world true))).
    intros _. by eexists.
  - apply (proj1 (timers_return_result (const_function (VInt 42))
                    (const_callable true (VInt 42)) [] ∅ (fresh_world false))).
    intros _. by eexists.
  - apply (proj2 (timers_return_result (const_function (VInt 42))
                    (const_callable true (VInt 42)) [] ∅ (fresh_world true)));
      [intros _; by eexists | reflexivity | reflexivity | reflexivity].
  - apply (proj2 (timers_return_result (const_function (VInt 42))
                    (const_callable true (VInt 42)) [] ∅ (fresh_world false)));
      [intros _; by eexists | reflexivity | reflexivity | reflexivity].
Defined.

(** C5 as stated fails.  With timing on, around a [functools.partial]
    object, which has no [__qualname__], the wrapper of [timer] raises
    [AttributeError] although the callable has returned 42.  Around a
    coroutine function, on an argument list with a keyword argument named
    [func], the wrapper of [async_timer] raises [TypeError] and the callable
    is not run.  Around a plain callable the wrapper of [async_timer] raises
    [AssertionError]. *)
Lemma timers_return_result_counterexample :
  (invoke (partial_function (VInt 42)) [] ∅
     (world_at_call (fresh_world true))).1 = Return (VInt 42) /\
  (timer (partial_function (VInt 42)) [] ∅ (fresh_world true)).1
    = Raise AttributeError /\
  (call (const_callable true (VInt 42)) [] {[ "func" := VInt 1 ]}
     (world_at_call (fresh_world false))).1 = Return (VInt 42) /\
  (call (async_timer (const_callable true (VInt 42))) [] {[ "func" := VInt 1 ]}
     (fresh_world false)).1 = Raise TypeError /\
  (call (async_timer (const_callable false (VInt 42))) [] ∅
     (fresh_world false)).1 = Raise AssertionError.
Proof. repeat split. Qed.




(** ** trace_metadata *)

Section TraceMetadata.

Import trace_metadata.

Lemma dict_get_default (d : gmap string pyval) key dflt :
  dict_get d key dflt = default dflt (d !! key).
Proof. unfold dict_get. by destruct (d !! key). Qed.

Lemma copy_attr_lookup request name (md : gmap string pyval) k :
  copy_attr request name md !! k
  = if decide (k = name)
    then match getattr request name with
         | Some v => Some v
         | None => md !! k
         end
    else md !! k.
Proof.
  unfold copy_attr, hasattr. destruct (getattr request name) as [v|].
  - rewrite bool_decide_eq_true_2 by (by eexists). simpl.
    rewrite lookup_insert. repeat case_decide; congruence.
  - rewrite bool_decide_eq_false_2 by (by intros [? ?]). by case_decide.
Qed.

(** What [extract] returns, entry by entry. *)
Lemma extract_lookup args request :
  args !! 1%nat = Some request ->
  exists md, extract args = Return md /\
    forall name, md !! name = if decide (name ∈ identifying_attributes)
                              then getattr request name else None.
Proof.
  intros Hreq. unfold extract. rewrite Hreq. eexists. split; [done |].
  intros name. rewrite !copy_attr_lookup, lookup_empty.
  destruct (decide (name ∈ identifying_attributes)) as [Hin | Hnin].
  - unfold identifying_attributes in Hin.
    rewrite !elem_of_cons, elem_of_nil in Hin.
    destruct Hin as [-> | [-> | [-> | [-> | []]]]];
      repeat (case_decide; try done); by repeat case_match.
  - repeat case_decide; try done; subst; exfalso; apply Hnin;
      unfold identifying_attributes; rewrite !elem_of_cons; tauto.
Qed.

(** The awaited call, run: it returns only what an awaitable call returns,
    and leaves the world as the call left it. *)
Lemma await_call_run func args kwargs w :
  match await_call func args kwargs w with
  | (Return v, w1) =>
      awaitable func = true /\ call func args kwargs w = (Return v, w1)
  | (Raise e, w1) => w1 = (call func args kwargs w).2
  end.
Proof.
  unfold await_call, bind, raise.
  destruct (awaitable func);
    by destruct (call func args kwargs w) as [[v|e] w1].
Qed.

(** The wrapper, run: when it returns, the callable has returned the same
    value, a request stood at index 1, and exactly one update was pushed,
    made of the request's attributes, the result's metadata and the pipes
    metadata; when it raises, it has pushed nothing. *)
Lemma wrapper_run func args kwargs w :
  match wrapper func args kwargs w with
  | (Return out, w2) =>
      exists w1 request rel,
        call func args kwargs w = (Return out, w1) /\
        args !! 1%nat = Some request /\
        w2 = (update_current_trace
                {| user_id := default VNone (getattr request "user_id");
                   session_id := default VNone (getattr request "thread_id");
                   release := rel;
                   metadata :=
                     <["project_id" := default VNone (getattr request "project_id")]>
                       (<["mdl_hash" := default VNone (getattr request "mdl_hash")]>
                          (result_metadata out ∪ pipes_metadata_of kwargs)) |}
                w1).2
  | (Raise e, w2) => w2 = (call func args kwargs w).2
  end.
Proof.
  unfold wrapper, bind, lift.
  pose proof (await_call_run func args kwargs w) as Hawait.
  destruct (await_call func args kwargs w) as [[results|e] w1]; [| done].
  destruct Hawait as [_ Hcall]. rewrite Hcall. cbn [snd].
  set (addition := match results with VDict d => _ | _ => _ end).
  assert (Hadd : addition = Return (result_metadata results)
                 \/ exists e, addition = Raise e).
  { subst addition. unfold result_metadata, dict_get, dict_update.
    destruct results as [| | |d|]; eauto.
    destruct (d !! "metadata") as [[| | [|] |m|]|]; eauto.
    left. by rewrite (right_id_L ∅ (∪)). }
  destruct Hadd as [-> | [e ->]]; [| done].
  destruct (args !! 1%nat) as [request|] eqn:Hreq;
    [| by unfold extract; rewrite Hreq].
  destruct (extract_lookup args request Hreq) as (md & -> & Hmd).
  rewrite !dict_get_default, !Hmd. simpl decide. cbn iota.
  unfold pipes_metadata_of, default_service_metadata.
  destruct (kwargs !! "service_metadata") as [[| | |sm|attrs]|] eqn:Hsm;
    simpl; try done.
  - rewrite (dict_get_default sm "pipes_metadata").
    destruct (sm !! "pipes_metadata") as [[| | |pipes|]|]; simpl; try done.
    exists w1, request. eexists. do 2 (split; [done |]).
    repeat f_equal. apply (right_id_L ∅ (∪)).
  - by case_bool_decide.
  - exists w1, request. eexists. do 2 (split; [done |]).
    repeat f_equal.
Qed.

(** The wrapper returns on every well-formed call. *)
Lemma wrapper_returns func args kwargs w results w1 request :
  awaitable func = true ->
  call func args kwargs w = (Return results, w1) ->
  args !! 1%nat = Some request ->
  service_metadata_ok kwargs = true ->
  result_metadata_ok results = true ->
  exists w2, wrapper func args kwargs w = (Return results, w2).
Proof.
  intros Haw Hcall Hreq Hsm Hres. unfold wrapper, bind, lift.
  rewrite (await_call_awaitable func args kwargs Haw), Hcall.
  destruct (extract_lookup args request Hreq) as (md & -> & _).
  unfold service_metadata_ok in Hsm. unfold result_metadata_ok in Hres.
  assert (Hadd : exists m,
    match results with
    | VDict d => dict_update ∅ (dict_get d "metadata" (VDict ∅))
    | _ => Return ∅
    end = Return m).
  { destruct results as [| | |d|]; eauto.
    rewrite dict_get_default.
    destruct (d !! "metadata") as [[| | |m|]|]; simpl; eauto; done. }
  destruct Hadd as [m ->].
  unfold default_service_metadata. rewrite !(dict_get_default kwargs).
  destruct (kwargs !! "service_metadata") as [[| | |sm|]|]; try done; simpl.
  - rewrite (dict_get_default sm "pipes_metadata").
    destruct (sm !! "pipes_metadata") as [[| | |pipes|]|]; try done; simpl.
    by eexists.
  - by eexists.
Qed.

Lemma merged_lookup_insert (a b : gmap string pyval) mdl_hash project_id k :
  (<["project_id" := project_id]> (<["mdl_hash" := mdl_hash]> (b ∪ a))) !! k
  = merged_lookup a b mdl_hash project_id k.
Proof.
  unfold merged_lookup. rewrite !lookup_insert, lookup_union.
  repeat case_decide; try congruence.
  by destruct (b !! k), (a !! k).
Qed.

End TraceMetadata.

(** C3, amended. On every call on which it can read its inputs (the call of
    the callable can be awaited, a request stands at index 1,
    [service_metadata] is absent or a dict whose [pipes_metadata] is a dict,
    and the [metadata] of a dict result, if any, is a dict), the wrapper
    returns the callable's result; and whenever it returns, the value is the
    one the callable returned and exactly one update was pushed, whose
    metadata is, key by key, the merge of the pipes metadata, the result's
    metadata and the model-hash and project identifiers of the request,
    later ones overriding earlier ones.  When it raises, it has pushed
    nothing. *)
Theorem wrapper_pushes_merged_metadata (func : callable)
  (args : list pyval) (kwargs : gmap string pyval) (w : world) :
  (forall results w1 request,
     awaitable func = true ->
     call func args kwargs w = (Return results, w1) ->
     args !! 1%nat = Some request ->
     service_metadata_ok kwargs = true ->
     result_metadata_ok results = true ->
     exists w2, call (trace_metadata func) args kwargs w = (Return results, w2)) /\
  match call (trace_metadata func) args kwargs w with
  | (Return out, w2) =>
      exists w1 request upd,
        call func args kwargs w = (Return out, w1) /\
        args !! 1%nat = Some request /\
        trace_updates w2 = trace_updates w1 ++ [upd] /\
        forall k, metadata upd !! k =
                  merged_lookup (pipes_metadata_of kwargs) (result_metadata out)
                    (default VNone (getattr request "mdl_hash"))
                    (default VNone (getattr request "project_id")) k
  | (Raise _, w2) => trace_updates w2 = trace_updates (call func args kwargs w).2
  end.
Proof.
  split.
  - intros results w1 request. apply wrapper_returns.
  - pose proof (wrapper_run func args kwargs w) as Hrun. simpl.
    destruct (trace_metadata.wrapper func args kwargs w) as [[out|e] w2].
    + destruct Hrun as (w1 & request & rel & Hcall & Hreq & ->).
      exists w1, request. eexists. do 3 (split; [done |]).
      intros k. apply merged_lookup_insert.
    + by rewrite Hrun.
Qed.

(** The service test of the specification: the request exposes project
    "p1", the callable returns a metadata mapping with "k": "v"; the wrapper
    returns that result. *)
Lemma wrapper_pushes_merged_metadata_witness :
  exists w2,
    call (trace_metadata (const_callable true example_results))
      example_args example_kwargs (fresh_world false)
    = (Return example_results, w2).
Proof.
  apply (proj1 (wrapper_pushes_merged_metadata
                  (const_callable true example_results)
                  example_args example_kwargs (fresh_world false))
           example_results (fresh_world false) example_request);
    reflexivity.
Defined.

(** C3 as stated fails: the result is not always returned.  The coroutine
    function of the docstring, called without arguments, returns "Mock", and
    the wrapper raises [IndexError]; with a [service_metadata] that has no
    [pipes_metadata] the callable's result is lost to a [TypeError].  In
    both cases nothing is pushed. *)
Lemma wrapper_pushes_merged_metadata_counterexample :
  call (const_callable true (VStr "Mock")) [] ∅ (fresh_world false)
    = (Return (VStr "Mock"), fresh_world false) /\
  call (trace_metadata (const_callable true (VStr "Mock"))) [] ∅
    (fresh_world false)
    = (Raise IndexError, fresh_world false) /\
  call (trace_metadata (const_callable true example_results)) example_args
    {[ "service_metadata" := VDict {[ "service_version" := VStr "0.8" ]} ]}
    (fresh_world false)
    = (Raise TypeError, fresh_world false).
Proof. repeat split. Qed.

(** C9. Whenever the wrapper returns, the metadata it has pushed holds the
    keys "mdl_hash" and "project_id", with the request's attribute, or with
    [None] when the request lacks the attribute, whatever the pipes metadata
    and the result's metadata say at those keys. *)
Theorem wrapper_always_sets_identifiers (func : callable)
  (args : list pyval) (kwargs : gmap string pyval) (w : world)
  (out : pyval) (w2 : world) :
  call (trace_metadata func) args kwargs w = (Return out, w2) ->
  exists request upd,
    args !! 1%nat = Some request /\
    last (trace_updates w2) = Some upd /\
    metadata upd !! "mdl_hash"
      = Some (default VNone (getattr request "mdl_hash")) /\
    metadata upd !! "project_id"
      = Some (default VNone (getattr request "project_id")) /\
    (getattr request "mdl_hash" = None ->
     metadata upd !! "mdl_hash" = Some VNone) /\
    (getattr request "project_id" = None ->
     metadata upd !! "project_id" = Some VNone).
Proof.
  intros Hret. pose proof (wrapper_run func args kwargs w) as Hrun.
  simpl in Hret. rewrite Hret in Hrun.
  destruct Hrun as (w1 & request & rel & Hcall & Hreq & ->).
  exists request. eexists. split; [done |].
  split; [apply last_snoc |]. simpl.
  rewrite !merged_lookup_insert. unfold merged_lookup. simpl.
  repeat split; by intros ->.
Qed.

(** The request has a project but no model hash, while the pipes metadata
    carries a "mdl_hash" and the result's metadata a "project_id": the
    pushed "mdl_hash" is [None] and the pushed "project_id" is the
    request's. *)
Lemma wrapper_always_sets_identifiers_witness :
  exists w2 upd,
    call (trace_metadata (const_callable true example_results))
      example_args example_kwargs (fresh_world false)
    = (Return example_results, w2) /\
    last (trace_updates w2) = Some upd /\
    metadata upd !! "mdl_hash" = Some VNone /\
    metadata upd !! "project_id" = Some (VStr "p1").
Proof.
  pose (w2 := (call (trace_metadata (const_callable true example_results))
                 example_args example_kwargs (fresh_world false)).2).
  assert (Hret : call (trace_metadata (const_callable true example_results))
                   example_args example_kwargs (fresh_world false)
                 = (Return example_results, w2)) by reflexivity.
  destruct (wrapper_always_sets_identifiers _ _ _ _ _ _ Hret)
    as (request & upd & Hreq & Hlast & Hm & Hp & Hnone & _).
  exists w2, upd. injection Hreq as <-.
  split; [exact Hret |]. split; [exact Hlast |].
  split; [by apply Hnone | exact Hp].
Defined.

(** C1, amended. On every invocation with a positional argument at index 1,
    [extract] reads the four optional attributes from that argument, the
    second positional one (the request that follows the receiver of a
    service method): its result holds exactly those of the four attributes
    the request has, and the update the wrapper pushes takes its user,
    session, model-hash and project identifiers from there. *)
Theorem extract_reads_second_positional (args : list pyval) (request : pyval) :
  args !! 1%nat = Some request ->
  (exists md, trace_metadata.extract args = Return md /\
     forall name, md !! name = if decide (name ∈ identifying_attributes)
                               then getattr request name else None) /\
  (forall func kwargs w out w2,
     call (trace_metadata func) args kwargs w = (Return out, w2) ->
     exists upd,
       last (trace_updates w2) = Some upd /\
       user_id upd = default VNone (getattr request "user_id") /\
       session_id upd = default VNone (getattr request "thread_id") /\
       metadata upd !! "mdl_hash"
         = Some (default VNone (getattr request "mdl_hash")) /\
       metadata upd !! "project_id"
         = Some (default VNone (getattr request "project_id"))).
Proof.
  intros Hreq. split; [by apply extract_lookup |].
  intros func kwargs w out w2 Hret.
  pose proof (wrapper_run func args kwargs w) as Hrun.
  simpl in Hret. rewrite Hret in Hrun.
  destruct Hrun as (w1 & request' & rel & Hcall & Hreq' & ->).
  assert (request' = request) as -> by congruence.
  eexists. split; [apply last_snoc |]. simpl.
  by rewrite !merged_lookup_insert.
Qed.

(** With the service object first and the request second, the project
    identifier extracted is the request's. *)
Lemma extract_reads_second_positional_witness :
  [example_receiver; example_request] !! 1%nat = Some example_request /\
  exists md, trace_metadata.extract [example_receiver; example_request]
             = Return md /\
    md !! "project_id" = Some (VStr "p1").
Proof.
  split; [reflexivity |].
  destruct (extract_reads_second_positional
              [example_receiver; example_request] example_request eq_refl)
    as [(md & Hmd & Hlookup) _].
  exists md. split; [exact Hmd |]. exact (Hlookup "project_id").
Defined.

(** C1 as stated fails: with a receiver and a request that both expose
    [project_id], the extracted one is not that of the first positional
    argument; and a request passed as the first and only positional argument
    is not read at all. *)
Lemma extract_first_positional_counterexample :
  [example_receiver; example_request] !! 0%nat = Some example_receiver /\
  (exists md, trace_metadata.extract [example_receiver; example_request]
              = Return md /\
     md !! "project_id" <> getattr example_receiver "project_id" /\
     md !! "project_id" = getattr example_request "project_id") /\
  trace_metadata.extract [example_request] = Raise IndexError.
Proof.
  split; [reflexivity |]. split; [| reflexivity].
  eexists. split; [reflexivity |]. split; [| reflexivity].
  vm_compute. discriminate.
Qed.

(** ** remove_sql_summary_duplicates *)

Section DedupProperties.

Context {V : Type} `{Countable V}.

Implicit Types (d : gmap string V) (dicts rest earlier : list (gmap string V)).

Lemma first_occurrences_firsts_from dicts :
  first_occurrences dicts = firsts_from [] dicts.
Proof. done. Qed.

Lemma has_fields_identifier d :
  has_fields d ->
  exists sql summary,
    d !! "sql" = Some sql /\ d !! "summary" = Some summary /\
    identifier d = Some (sql, summary).
Proof.
  intros [[sql Hsql] [summary Hsummary]]. exists sql, summary.
  unfold identifier. by rewrite Hsql, Hsummary.
Qed.

(** Filtering indexed records does not depend on how the indices are
    written, as long as the tests agree. *)
Lemma filter_indexed_ext {A} (P Q : nat * A -> Prop)
  `{!forall p, Decision (P p)} `{!forall p, Decision (Q p)}
  (l : list A) (f g : nat -> nat) :
  (forall i x, P (f i, x) <-> Q (g i, x)) ->
  (filter P (imap (fun i x => (f i, x)) l)).*2
  = (filter Q (imap (fun i x => (g i, x)) l)).*2.
Proof.
  revert f g. induction l as [|x l IH]; intros f g HPQ; [done |].
  rewrite !imap_cons, !filter_cons.
  specialize (IH (f ∘ S) (g ∘ S) (fun i x => HPQ (S i) x)).
  destruct (decide (P (f 0%nat, x))) as [HP | HP],
           (decide (Q (g 0%nat, x))) as [HQ | HQ];
    try (exfalso; by (apply HQ, HPQ) || (apply HP, HPQ)).
  - simpl. f_equal. exact IH.
  - exact IH.
Qed.

Lemma firsts_from_cons earlier d rest :
  firsts_from earlier (d :: rest)
  = (if decide (identifier d ∉ identifier <$> earlier) then [d] else [])
    ++ firsts_from (earlier ++ [d]) rest.
Proof.
  unfold firsts_from. rewrite imap_cons, filter_cons. simpl take.
  rewrite (right_id_L [] (++) earlier). simpl.
  assert (Htail :
    (filter (fun p => identifier p.2
                      ∉ identifier <$> (earlier ++ take p.1 (d :: rest)))
       (imap (pair ∘ S) rest)).*2
    = (filter (fun p => identifier p.2
                        ∉ identifier <$> ((earlier ++ [d]) ++ take p.1 rest))
         (imap pair rest)).*2).
  { apply (filter_indexed_ext _ _ rest S id).
    intros i x. simpl. by rewrite <- (assoc_L (++)). }
  destruct (decide (identifier d ∉ identifier <$> earlier));
    [rewrite fmap_cons |]; by rewrite Htail.
Qed.

Lemma firsts_from_nil earlier : firsts_from earlier [] = [].
Proof. done. Qed.

Lemma firsts_from_sublist rest : forall earlier,
  firsts_from earlier rest `sublist_of` rest.
Proof.
  induction rest as [|d rest IH]; intros earlier; [done |].
  rewrite firsts_from_cons. case_decide; simpl.
  - by apply sublist_skip.
  - by apply sublist_cons.
Qed.

Lemma firsts_from_fresh rest : forall earlier,
  NoDup (identifier <$> firsts_from earlier rest) /\
  forall x, x ∈ identifier <$> firsts_from earlier rest ->
            x ∉ identifier <$> earlier.
Proof.
  induction rest as [|d rest IH]; intros earlier.
  { rewrite firsts_from_nil. split; [constructor | by inversion 1]. }
  rewrite firsts_from_cons.
  destruct (IH (earlier ++ [d])) as [Hnd Hfresh].
  assert (Htail : forall x, x ∈ identifier <$> firsts_from (earlier ++ [d]) rest ->
                            (x ∉ identifier <$> earlier) /\ x <> identifier d).
  { intros x Hx. specialize (Hfresh x Hx).
    rewrite fmap_app, not_elem_of_app in Hfresh. destruct Hfresh as [? Hd].
    split; [done |]. intros ->. apply Hd. by left. }
  case_decide as Hnew; simpl.
  - split.
    + apply NoDup_cons. split; [| done].
      intros Hin. by destruct (Htail _ Hin).
    + intros x [-> | Hx]%elem_of_cons; [done |]. by destruct (Htail _ Hx).
  - split; [done |]. intros x Hx. by destruct (Htail _ Hx).
Qed.

Lemma firsts_from_covers rest : forall earlier d,
  d ∈ rest ->
  identifier d ∈ identifier <$> (earlier ++ firsts_from earlier rest).
Proof.
  induction rest as [|d' rest IH]; intros earlier d Hd; [by inversion Hd |].
  rewrite firsts_from_cons.
  assert (Hhead : identifier d'
                  ∈ identifier <$> (earlier ++
                      (if decide (identifier d' ∉ identifier <$> earlier)
                       then [d'] else []))).
  { rewrite fmap_app, elem_of_app. case_decide as Hnew.
    - right. by left.
    - by left. }
  apply elem_of_cons in Hd as [-> | Hd].
  - rewrite fmap_app, elem_of_app in Hhead. rewrite !fmap_app, !elem_of_app.
    tauto.
  - specialize (IH (earlier ++ [d']) d Hd).
    rewrite !fmap_app, !elem_of_app in IH.
    change (identifier <$> [d']) with [identifier d'] in IH.
    rewrite list_elem_of_singleton in IH.
    rewrite fmap_app, elem_of_app in Hhead.
    rewrite !fmap_app, !elem_of_app.
    destruct IH as [[? | ->] | ?]; tauto.
Qed.

Lemma firsts_from_distinct rest : forall earlier,
  NoDup (identifier <$> (earlier ++ rest)) -> firsts_from earlier rest = rest.
Proof.
  induction rest as [|d rest IH]; intros earlier Hnd; [done |].
  rewrite firsts_from_cons.
  rewrite IH by (by rewrite <- (assoc_L (++))).
  rewrite fmap_app in Hnd. apply NoDup_app in Hnd as (_ & Hdisj & _).
  case_decide as Hnew; [done |].
  exfalso. apply (Hdisj _ Hnew). rewrite fmap_cons. by left.
Qed.

(** The loop computes [firsts_from]: [seen] holds the pairs of the records
    already visited. *)
Lemma dedup_loop_firsts rest : forall seen unique_dicts earlier,
  Forall has_fields rest ->
  (forall p, p ∈ seen <-> Some p ∈ identifier <$> earlier) ->
  dedup_loop seen unique_dicts rest
  = Return (unique_dicts ++ firsts_from earlier rest).
Proof.
  induction rest as [|d rest IH]; intros seen unique_dicts earlier Hall Hseen.
  { simpl. by rewrite firsts_from_nil, (right_id_L [] (++)). }
  apply Forall_cons in Hall as [Hd Hall].
  destruct (has_fields_identifier d Hd) as (sql & summary & Hsql & Hsum & Hid).
  rewrite firsts_from_cons. simpl. unfold getitem. rewrite Hsql, Hsum. simpl.
  rewrite Hid.
  destruct (decide ((sql, summary) ∉ seen)) as [Hnew | Hold].
  - rewrite (IH _ _ (earlier ++ [d]) Hall).
    + rewrite decide_True by (by rewrite <- Hseen).
      by rewrite <- (assoc_L (++)).
    + intros p. rewrite elem_of_union, elem_of_singleton, Hseen.
      rewrite fmap_app, elem_of_app. simpl.
      rewrite list_elem_of_singleton, Hid.
      split; [intros [-> | ?]; auto | intros [? | [= ->]]; auto].
  - apply dec_stable in Hold.
    rewrite (IH _ _ (earlier ++ [d]) Hall).
    + rewrite decide_False; [done |]. intros Hnew. apply Hnew. by apply Hseen.
    + intros p. rewrite Hseen, fmap_app, elem_of_app. simpl.
      rewrite list_elem_of_singleton, Hid.
      split; [tauto |]. intros [? | [= ->]]; [done | by apply Hseen].
Qed.

(** The loop stops with a [KeyError] when a record lacks a field. *)
Lemma dedup_loop_missing rest : forall seen unique_dicts,
  Exists (fun d => ¬ has_fields d) rest ->
  exists key, dedup_loop seen unique_dicts rest = Raise (KeyError key) /\
              (key = "sql" \/ key = "summary").
Proof.
  induction rest as [|d rest IH]; intros seen unique_dicts Hex;
    [by inversion Hex |].
  simpl. unfold getitem.
  destruct (d !! "sql") as [sql|] eqn:Hsql; simpl; [| by eauto].
  destruct (d !! "summary") as [summary|] eqn:Hsum; simpl; [| by eauto].
  apply Exists_cons in Hex as [Hbad | Hex].
  { exfalso. apply Hbad. split; by eexists. }
  case_decide; by apply IH.
Qed.

Lemma remove_runs dicts :
  Forall has_fields dicts ->
  remove_sql_summary_duplicates dicts = Return (first_occurrences dicts).
Proof.
  intros Hall. unfold remove_sql_summary_duplicates.
  rewrite (dedup_loop_firsts dicts ∅ [] [] Hall); [done |].
  intros p. rewrite elem_of_empty, fmap_nil, elem_of_nil. tauto.
Qed.

Lemma first_occurrences_fields dicts :
  Forall has_fields dicts -> Forall has_fields (first_occurrences dicts).
Proof.
  intros Hall. apply Forall_forall. intros d Hd.
  apply (proj1 (Forall_forall has_fields dicts) Hall).
  by apply (sublist_subseteq _ _ (firsts_from_sublist dicts [])).
Qed.

Lemma first_occurrences_again dicts :
  first_occurrences (first_occurrences dicts) = first_occurrences dicts.
Proof.
  rewrite (first_occurrences_firsts_from (first_occurrences dicts)).
  apply firsts_from_distinct. apply (proj1 (firsts_from_fresh dicts [])).
Qed.

End DedupProperties.

(** C4. On records that all have the fields [sql] and [summary], the helper
    returns the records that are the first of their (sql, summary) pair, in
    their original order: a subsequence of the input, with pairwise distinct
    pairs, in which every pair of the input is present. *)
Theorem remove_sql_summary_duplicates_first_occurrences
  {V : Type} `{Countable V} (dicts : list (gmap string V)) :
  Forall has_fields dicts ->
  remove_sql_summary_duplicates dicts = Return (first_occurrences dicts) /\
  first_occurrences dicts `sublist_of` dicts /\
  NoDup (identifier <$> first_occurrences dicts) /\
  (forall d, d ∈ dicts -> identifier d ∈ identifier <$> first_occurrences dicts).
Proof.
  intros Hall. split; [by apply remove_runs |].
  rewrite first_occurrences_firsts_from. split; [| split].
  - apply firsts_from_sublist.
  - apply (proj1 (firsts_from_fresh dicts [])).
  - intros d Hd. exact (firsts_from_covers dicts [] d Hd).
Qed.

(** The example of the specification: of the two records (A, x) the first
    stays, followed by (B, x). *)
Lemma remove_sql_summary_duplicates_first_occurrences_witness :
  Forall has_fields example_dicts /\
  remove_sql_summary_duplicates example_dicts
  = Return [ {[ "sql" := "A"; "summary" := "x" ]};
             {[ "sql" := "B"; "summary" := "x" ]} ].
Proof.
  assert (Hall : Forall has_fields example_dicts).
  { unfold example_dicts.
    repeat (apply Forall_cons_2; [split; by eexists |]). apply Forall_nil_2. }
  split; [exact Hall |].
  rewrite (proj1 (remove_sql_summary_duplicates_first_occurrences
                    example_dicts Hall)).
  vm_compute. reflexivity.
Defined.

(** Of two records with the same pair that differ elsewhere, the one met
    first is the one returned. *)
Example remove_sql_summary_duplicates_keeps_first :
  remove_sql_summary_duplicates
    [ ({[ "sql" := "A"; "summary" := "x"; "note" := "first" ]} : gmap string string);
      {[ "sql" := "A"; "summary" := "x"; "note" := "second" ]} ]
  = Return [ {[ "sql" := "A"; "summary" := "x"; "note" := "first" ]} ].
Proof. vm_compute. reflexivity. Qed.

(** C7. On records that all have both fields the helper returns a list on
    which it returns that same list again. *)
Theorem remove_sql_summary_duplicates_idempotent
  {V : Type} `{Countable V} (dicts : list (gmap string V)) :
  Forall has_fields dicts ->
  exists once,
    remove_sql_summary_duplicates dicts = Return once /\
    remove_sql_summary_duplicates once = Return once.
Proof.
  intros Hall. exists (first_occurrences dicts).
  split; [by apply remove_runs |].
  rewrite remove_runs by (by apply first_occurrences_fields).
  by rewrite first_occurrences_again.
Qed.

(** On the example of the specification, a second pass changes nothing. *)
Lemma remove_sql_summary_duplicates_idempotent_witness :
  exists once,
    remove_sql_summary_duplicates example_dicts = Return once /\
    remove_sql_summary_duplicates once = Return once /\
    length once = 2%nat.
Proof.
  assert (Hall : Forall has_fields example_dicts).
  { unfold example_dicts.
    repeat (apply Forall_cons_2; [split; by eexists |]). apply Forall_nil_2. }
  destruct (remove_sql_summary_duplicates_idempotent example_dicts Hall)
    as (once & Hfirst & Hsecond).
  exists once. split; [exact Hfirst |]. split; [exact Hsecond |].
  assert (Hlen : (fun o => match o with
                           | Return l => length l
                           | Raise _ => 2%nat
                           end) (remove_sql_summary_duplicates example_dicts)
                 = 2%nat) by reflexivity.
  rewrite Hfirst in Hlen. exact Hlen.
Defined.

(** C8. When some record of the input lacks [sql] or [summary], the helper
    returns nothing: it raises [KeyError], for the one or the other key. *)
Theorem remove_sql_summary_duplicates_missing_field
  {V : Type} `{Countable V} (dicts : list (gmap string V)) :
  (exists d, d ∈ dicts /\ (d !! "sql" = None \/ d !! "summary" = None)) ->
  exists key,
    remove_sql_summary_duplicates dicts = Raise (KeyError key) /\
    (key = "sql" \/ key = "summary").
Proof.
  intros (d & Hd & Hmiss). apply dedup_loop_missing.
  apply Exists_exists. exists d. split; [done |].
  intros [[sql Hsql] [summary Hsum]]. destruct Hmiss; congruence.
Qed.

(** A record without [summary] at the end of the list: the records before
    it are not returned, the helper raises for "summary". *)
Lemma remove_sql_summary_duplicates_missing_field_witness :
  example_incomplete ∈ example_dicts ++ [example_incomplete] /\
  remove_sql_summary_duplicates (example_dicts ++ [example_incomplete])
  = Raise (KeyError "summary").
Proof.
  assert (Hin : example_incomplete ∈ example_dicts ++ [example_incomplete]).
  { apply elem_of_app. right. by left. }
  split; [exact Hin |].
  destruct (remove_sql_summary_duplicates_missing_field
              (example_dicts ++ [example_incomplete])) as (key & Hkey & _).
  { exists example_incomplete. split; [exact Hin | by right]. }
  rewrite Hkey. symmetry. rewrite <- Hkey. reflexivity.
Defined.

(** * Further properties *)

(** ** remove_trailing_slash, continued *)

Section TrailingSlashMore.

#[local] Arguments String.append !_ _ / : simpl nomatch.

Lemma str_app_assoc (a b c : string) : (a +:+ b) +:+ c = a +:+ (b +:+ c).
Proof. induction a as [|x a IH]; simpl; [done | by rewrite IH]. Qed.

Lemma slashes_app n m :
  Str.slashes n +:+ Str.slashes m = Str.slashes (n + m).
Proof. induction n as [|n IH]; simpl; [done | by rewrite IH]. Qed.

Lemma rstrip_empty_slashes s :
  Str.rstrip s "/" = "" -> exists n, s = Str.slashes n.
Proof.
  intros Hr. destruct (rstrip_decompose s) as [n Hn].
  exists n. by rewrite Hr in Hn.
Qed.

End TrailingSlashMore.

(** X1. The number of trailing slashes does not matter: adding any number of
    slashes to a string leaves the result of [remove_trailing_slash]
    unchanged, so "a", "a/" and "a///" normalise to the same string. *)
Theorem remove_trailing_slash_ignores_count (s : string) (n : nat) :
  remove_trailing_slash (s +:+ Str.slashes n) = remove_trailing_slash s.
Proof.
  rewrite !remove_trailing_slash_rstrip.
  destruct (rstrip_decompose s) as [m Hm]. rewrite Hm at 1.
  rewrite str_app_assoc, slashes_app.
  apply rstrip_app_slashes, rstrip_not_endswith.
Qed.

(** X2. The result is empty exactly for the strings made of slashes only
    (the empty string included): a bare "/" does not survive. *)
Theorem remove_trailing_slash_empty_iff (s : string) :
  remove_trailing_slash s = "" <-> exists n, s = Str.slashes n.
Proof.
  rewrite remove_trailing_slash_rstrip. split.
  - apply rstrip_empty_slashes.
  - intros [n ->]. apply rstrip_slashes.
Qed.

(** ** setup_custom_logger, continued *)

Lemma upper_char_idem c : Str.upper_char (Str.upper_char c) = Str.upper_char c.
Proof. by destruct c as [[] [] [] [] [] [] [] []]. Qed.

Lemma upper_idem s : Str.upper (Str.upper s) = Str.upper s.
Proof.
  induction s as [|c s IH]; [done |].
  simpl. by rewrite upper_char_idem, IH.
Qed.

(** One successful run of the factory. *)
Lemma setup_custom_logger_run name level_str w lvl :
  nameToLevel w !! Str.upper level_str = Some lvl ->
  exists w', setup_custom_logger name level_str w = (Return name, w') /\
    logger_of w' name =
      Some {| level := lvl;
              handlers := handlers (default new_logger (logger_of w name))
                          ++ [StreamHandler CustomFormatter] |} /\
    nameToLevel w' = nameToLevel w.
Proof.
  intros Hlvl. unfold setup_custom_logger. rewrite Hlvl.
  eexists. split; [reflexivity |]. split; [| done].
  unfold logger_of. simpl. rewrite !lookup_alter_eq.
  destruct (loggers w !! name) as [lg|] eqn:Hl; simpl.
  - by rewrite Hl.
  - by rewrite lookup_insert_eq.
Qed.

(** X3. The level name is case-insensitive: the factory does on a name what
    it does on the name in upper case, error message included. *)
Theorem setup_custom_logger_case_insensitive (name level_str : string)
  (w : world) :
  setup_custom_logger name (Str.upper level_str) w
  = setup_custom_logger name level_str w.
Proof. unfold setup_custom_logger. by rewrite upper_idem. Qed.

(** X4. Handlers pile up: two successful calls for the same logger name
    leave the logger at the level of the second call with two more stream
    handlers than before; the factory never reuses or replaces a handler. *)
Theorem setup_custom_logger_twice (name s1 s2 : string) (w : world) (l1 l2 : Z) :
  nameToLevel w !! Str.upper s1 = Some l1 ->
  nameToLevel w !! Str.upper s2 = Some l2 ->
  exists w1 w2,
    setup_custom_logger name s1 w = (Return name, w1) /\
    setup_custom_logger name s2 w1 = (Return name, w2) /\
    logger_of w2 name =
      Some {| level := l2;
              handlers := handlers (default new_logger (logger_of w name))
                          ++ [StreamHandler CustomFormatter;
                              StreamHandler CustomFormatter] |}.
Proof.
  intros H1 H2.
  destruct (setup_custom_logger_run name s1 w l1 H1) as (w1 & Hrun1 & Hlg1 & Ht1).
  rewrite <- Ht1 in H2.
  destruct (setup_custom_logger_run name s2 w1 l2 H2) as (w2 & Hrun2 & Hlg2 & _).
  exists w1, w2. do 2 (split; [done |]).
  rewrite Hlg2, Hlg1. simpl. by rewrite <- (assoc_L (++)).
Qed.

(** "debug" then "info" on a fresh process: level INFO, two handlers. *)
Lemma setup_custom_logger_twice_witness :
  exists w1 w2,
    setup_custom_logger "wren-ai-service" "debug" (fresh_world false)
      = (Return "wren-ai-service", w1) /\
    setup_custom_logger "wren-ai-service" "info" w1
      = (Return "wren-ai-service", w2) /\
    logger_of w2 "wren-ai-service" =
      Some {| level := 20;
              handlers := [StreamHandler CustomFormatter;
                           StreamHandler CustomFormatter] |}.
Proof.
  exact (setup_custom_logger_twice "wren-ai-service" "debug" "info"
           (fresh_world false) 10 20 eq_refl eq_refl).
Defined.

(** ** CustomFormatter *)

(** X5. The formatter has a template for the five standard levels and for
    no other level number; each template is the one format string wrapped in
    a colour sequence and the reset sequence, DEBUG and WARNING sharing
    theirs. *)
Theorem CustomFormatter_log_fmt_cases (levelno : Z) :
  match CustomFormatter.log_fmt levelno with
  | Some fmt =>
      levelno ∈ [10; 20; 30; 40; 50] /\
      exists colour,
        colour ∈ [CustomFormatter.grey; CustomFormatter.yellow;
                  CustomFormatter.red; CustomFormatter.bold_red] /\
        fmt = colour +:+ CustomFormatter.format_template
              +:+ CustomFormatter.reset
  | None => levelno ∉ [10; 20; 30; 40; 50]
  end /\
  CustomFormatter.log_fmt 10 = CustomFormatter.log_fmt 30.
Proof.
  split; [| reflexivity].
  unfold CustomFormatter.log_fmt, CustomFormatter.FORMATS,
    CustomFormatter.DEBUG, CustomFormatter.INFO, CustomFormatter.WARNING,
    CustomFormatter.ERROR, CustomFormatter.CRITICAL.
  rewrite !lookup_insert, lookup_singleton.
  repeat case_decide; subst;
    try (split; [by repeat constructor |];
         eexists; split; [| reflexivity]; by repeat constructor).
  rewrite !elem_of_cons, elem_of_nil. intros Hin.
  repeat destruct Hin as [Hin | Hin]; congruence.
Qed.

(** ** timer and async_timer, continued *)

Lemma timer_enabled_returns func args kwargs w name v w1 :
  enable_timer w = true ->
  inv_qualname func = Some name ->
  invoke func args kwargs (perf_counter w).2 = (Return v, w1) ->
  timer.wrapper_timer func args kwargs w = (Return v, after_timed name w w1).
Proof.
  intros Hon Hname Hcall.
  unfold timer.wrapper_timer, bind, read_enable_timer.
  rewrite Hon, Hname. simpl in *. by rewrite Hcall.
Qed.

Lemma timer_enabled_raises func args kwargs w e w1 :
  enable_timer w = true ->
  invoke func args kwargs (perf_counter w).2 = (Raise e, w1) ->
  timer.wrapper_timer func args kwargs w = (Raise e, w1).
Proof.
  intros Hon Hcall. unfold timer.wrapper_timer, bind, read_enable_timer.
  rewrite Hon. simpl in *. by rewrite Hcall.
Qed.

Lemma async_timer_enabled_returns func args kwargs w name v w1 :
  enable_timer w = true ->
  qualname func = Some name ->
  async_timer.process func args kwargs (perf_counter w).2 = (Return v, w1) ->
  async_timer.wrapper_timer func args kwargs w
  = (Return v, after_timed name w w1).
Proof.
  intros Hon Hname Hcall.
  unfold async_timer.wrapper_timer, bind, read_enable_timer.
  rewrite Hon, Hname. simpl in *. by rewrite Hcall.
Qed.

Lemma async_timer_enabled_raises func args kwargs w e w1 :
  enable_timer w = true ->
  async_timer.process func args kwargs (perf_counter w).2 = (Raise e, w1) ->
  async_timer.wrapper_timer func args kwargs w = (Raise e, w1).
Proof.
  intros Hon Hcall. unfold async_timer.wrapper_timer, bind, read_enable_timer.
  rewrite Hon. simpl in *. by rewrite Hcall.
Qed.

Lemma process_call func args kwargs :
  kwargs !! "func" = None ->
  iscoroutinefunction func = true ->
  awaitable func = true ->
  async_timer.process func args kwargs = call func args kwargs.
Proof.
  intros Hkw Hco Haw. rewrite process_coroutine by done.
  by apply await_call_awaitable.
Qed.

Lemma await_call_raises func args kwargs w e w1 :
  call func args kwargs w = (Raise e, w1) ->
  await_call func args kwargs w = (Raise e, w1).
Proof.
  intros Hcall. unfold await_call, bind.
  destruct (awaitable func); by rewrite Hcall.
Qed.

(** X6. With timing off, a timing wrapper is the wrapped call and nothing
    more: the same outcome and the same world, so no clock reading and no
    log line.  For [async_timer] this holds around a coroutine function
    whose call yields an awaitable, on arguments without a keyword argument
    named [func]. *)
Theorem timers_disabled_transparent (f : invocable) (func : callable)
  (args : list pyval) (kwargs : gmap string pyval) (w : world) :
  enable_timer w = false ->
  timer f args kwargs w = invoke f args kwargs w /\
  (iscoroutinefunction func = true ->
   awaitable func = true ->
   kwargs !! "func" = None ->
   call (async_timer func) args kwargs w = call func args kwargs w).
Proof.
  intros Hoff. split.
  - unfold timer, timer.wrapper_timer, bind, read_enable_timer.
    by rewrite Hoff.
  - intros Hco Haw Hkw. simpl.
    unfold async_timer.wrapper_timer, bind, read_enable_timer.
    rewrite Hoff. by rewrite process_call.
Qed.

Lemma timers_disabled_transparent_witness :
  timer (const_function (VInt 42)) [] ∅ (fresh_world false)
    = (Return (VInt 42), fresh_world false) /\
  call (async_timer (const_callable true (VInt 42))) [] ∅ (fresh_world false)
    = (Return (VInt 42), fresh_world false).
Proof.
  destruct (timers_disabled_transparent (const_function (VInt 42))
              (const_callable true (VInt 42)) [] ∅
              (fresh_world false) eq_refl) as [Hsync Hasync].
  split; [exact Hsync |]. apply Hasync; reflexivity.
Defined.

(** X7. With timing on, when the wrapped callable has a [__qualname__] and
    returns, the wrapper returns the same value, reads the clock once before
    and once after the call, and tells the module logger exactly one line
    after whatever the callable logged: the qualified name with the
    difference of the two readings.  Nothing else of the world changes.  For
    [async_timer] this holds around a coroutine function whose call yields
    an awaitable, on arguments without a keyword argument named [func]. *)
Theorem timers_enabled_log_one_line (f : invocable) (func : callable)
  (args : list pyval) (kwargs : gmap string pyval) (w : world)
  (name : string) (v : pyval) (w1 : world) :
  enable_timer w = true ->
  (inv_qualname f = Some name ->
   invoke f args kwargs (perf_counter w).2 = (Return v, w1) ->
   timer f args kwargs w = (Return v, after_timed name w w1)) /\
  (qualname func = Some name ->
   iscoroutinefunction func = true ->
   awaitable func = true ->
   kwargs !! "func" = None ->
   call func args kwargs (perf_counter w).2 = (Return v, w1) ->
   call (async_timer func) args kwargs w = (Return v, after_timed name w w1)).
Proof.
  intros Hon. split.
  - intros Hname Hcall. by apply timer_enabled_returns.
  - intros Hname Hco Haw Hkw Hcall. simpl.
    apply async_timer_enabled_returns; [done | done |].
    by rewrite process_call.
Qed.

(** On a fresh process with timing on, the clock reads 0 then 1: one line
    with elapsed time 1. *)
Lemma timers_enabled_log_one_line_witness :
  log_lines (timer (const_function (VInt 42)) [] ∅ (fresh_world true)).2
  = [{| log_qualname := "AskService.ask"; log_elapsed := 1 |}] /\
  log_lines (call (async_timer (const_callable true (VInt 42))) [] ∅
               (fresh_world true)).2
  = [{| log_qualname := "AskService.ask"; log_elapsed := 1 |}].
Proof.
  destruct (timers_enabled_log_one_line (const_function (VInt 42))
              (const_callable true (VInt 42)) [] ∅
              (fresh_world true) "AskService.ask" (VInt 42)
              (perf_counter (fresh_world true)).2 eq_refl) as [Hsync Hasync].
  split.
  - by rewrite (Hsync eq_refl eq_refl).
  - by rewrite (Hasync eq_refl eq_refl eq_refl eq_refl eq_refl).
Defined.

(** X8. With timing on, when the wrapped callable raises, the wrapper raises
    the same exception and leaves the world as the callable left it: the
    clock is not read again and no line is logged for the failed call.  For
    [async_timer] this holds around a coroutine function, on arguments
    without a keyword argument named [func]. *)
Theorem timers_enabled_exception_not_logged (f : invocable) (func : callable)
  (args : list pyval) (kwargs : gmap string pyval) (w : world)
  (e : exn) (w1 : world) :
  enable_timer w = true ->
  (invoke f args kwargs (perf_counter w).2 = (Raise e, w1) ->
   timer f args kwargs w = (Raise e, w1)) /\
  (iscoroutinefunction func = true ->
   kwargs !! "func" = None ->
   call func args kwargs (perf_counter w).2 = (Raise e, w1) ->
   call (async_timer func) args kwargs w = (Raise e, w1)).
Proof.
  intros Hon. split.
  - intros Hcall. by apply timer_enabled_raises.
  - intros Hco Hkw Hcall. simpl. apply async_timer_enabled_raises; [done |].
    rewrite process_coroutine by done. by apply await_call_raises.
Qed.

Lemma timers_enabled_exception_not_logged_witness :
  timer (raising_function (OtherError "Timeout")) [] ∅ (fresh_world true)
    = (Raise (OtherError "Timeout"), (perf_counter (fresh_world true)).2) /\
  log_lines (call (async_timer (raising_callable true (OtherError "Timeout")))
               [] ∅ (fresh_world true)).2 = [].
Proof.
  destruct (timers_enabled_exception_not_logged
              (raising_function (OtherError "Timeout"))
              (raising_callable true (OtherError "Timeout")) [] ∅
              (fresh_world true) (OtherError "Timeout")
              (perf_counter (fresh_world true)).2 eq_refl)
    as [Hsync Hasync].
  split; [exact (Hsync eq_refl) |].
  by rewrite (Hasync eq_refl eq_refl eq_refl).
Defined.

(** X9. With a clock that never runs backwards and a callable that has a
    [__qualname__], returns and leaves the clock alone, the elapsed time
    logged by the wrapper is not negative.  For [async_timer] this holds
    around a coroutine function whose call yields an awaitable, on
    arguments without a keyword argument named [func]. *)
Theorem timers_elapsed_nonnegative (f : invocable) (func : callable)
  (args : list pyval) (kwargs : gmap string pyval) (w : world)
  (v : pyval) (w1 : world) :
  enable_timer w = true ->
  monotone_clock w ->
  clock w1 = clock w ->
  (clock_reads w <= clock_reads w1)%nat ->
  (is_Some (inv_qualname f) ->
   invoke f args kwargs (perf_counter w).2 = (Return v, w1) ->
   exists line,
     last (log_lines (timer f args kwargs w).2) = Some line /\
     0 <= log_elapsed line) /\
  (is_Some (qualname func) ->
   iscoroutinefunction func = true ->
   awaitable func = true ->
   kwargs !! "func" = None ->
   call func args kwargs (perf_counter w).2 = (Return v, w1) ->
   exists line,
     last (log_lines (call (async_timer func) args kwargs w).2) = Some line /\
     0 <= log_elapsed line).
Proof.
  intros Hon Hmono Hclock Hreads. specialize (Hmono _ _ Hreads). split.
  - intros [name Hname] Hcall. unfold timer.
    rewrite (timer_enabled_returns f args kwargs w name v w1) by done.
    eexists. split; [apply last_snoc |]. simpl. rewrite Hclock. lia.
  - intros [name Hname] Hco Haw Hkw Hcall. simpl.
    rewrite (async_timer_enabled_returns func args kwargs w name v w1);
      [| done | done | by rewrite process_call].
    eexists. split; [apply last_snoc |]. simpl. rewrite Hclock. lia.
Qed.

Lemma timers_elapsed_nonnegative_witness :
  exists line,
    last (log_lines (timer (const_function VNone) [] ∅
                       (fresh_world true)).2) = Some line /\
    0 <= log_elapsed line.
Proof.
  assert (Hmono : monotone_clock (fresh_world true)).
  { intros i j Hij. simpl. lia. }
  destruct (timers_elapsed_nonnegative (const_function VNone)
              (const_callable true VNone) [] ∅
              (fresh_world true) VNone (perf_counter (fresh_world true)).2
              eq_refl Hmono eq_refl (Nat.le_succ_diag_r 0)) as [Hsync _].
  apply Hsync; [by eexists | reflexivity].
Defined.

(** X11. The stacking the service uses: [async_timer] on top of
    [trace_metadata].  For a callable whose call can be awaited, on a call
    without a keyword argument named [func] that the tracing wrapper can
    read, the stack returns the callable's result whether timing is on or
    off. *)
Theorem async_timer_over_trace_metadata (func : callable)
  (args : list pyval) (kwargs : gmap string pyval) (w : world)
  (results request : pyval) (w1 : world) :
  awaitable func = true ->
  kwargs !! "func" = None ->
  call func args kwargs (world_at_call w) = (Return results, w1) ->
  args !! 1%nat = Some request ->
  service_metadata_ok kwargs = true ->
  result_metadata_ok results = true ->
  (call (async_timer (trace_metadata func)) args kwargs w).1 = Return results.
Proof.
  intros Haw Hkw Hcall Hreq Hsm Hres.
  destruct (wrapper_returns func args kwargs (world_at_call w) results w1
              request Haw Hcall Hreq Hsm Hres) as [w2 Hwrap].
  change (call (async_timer (trace_metadata func)) args kwargs w)
    with (async_timer.wrapper_timer (trace_metadata func) args kwargs w).
  rewrite async_timer_outcome by (intros _; by eexists).
  rewrite (process_call (trace_metadata func) args kwargs Hkw eq_refl eq_refl).
  simpl. by rewrite Hwrap.
Qed.

Lemma async_timer_over_trace_metadata_witness :
  (call (async_timer (trace_metadata (const_callable true example_results)))
     example_args example_kwargs (fresh_world true)).1
  = Return example_results.
Proof.
  apply (async_timer_over_trace_metadata
           (const_callable true example_results) example_args example_kwargs
           (fresh_world true) example_results example_request
           (perf_counter (fresh_world true)).2); reflexivity.
Defined.

(** ** trace_metadata, continued *)

Section TraceMetadataMore.

Import trace_metadata.

(** The metadata of the result, as the wrapper computes it. *)
Lemma addition_of_results results :
  result_metadata_ok results = true ->
  match results with
  | VDict d => dict_update ∅ (dict_get d "metadata" (VDict ∅))
  | _ => Return ∅
  end = Return (result_metadata results).
Proof.
  unfold result_metadata_ok, result_metadata. intros Hok.
  destruct results as [| | |d|]; try done.
  rewrite dict_get_default.
  destruct (d !! "metadata") as [[| | |m|]|]; try done; simpl.
  f_equal. apply (right_id_L ∅ (∪)).
Qed.

(** [wrapper_run] with the release tag spelled out. *)
Lemma wrapper_run_release func args kwargs w out w2 :
  wrapper func args kwargs w = (Return out, w2) ->
  exists w1 request md,
    call func args kwargs w = (Return out, w1) /\
    args !! 1%nat = Some request /\
    w2 = (update_current_trace
            {| user_id := default VNone (getattr request "user_id");
               session_id := default VNone (getattr request "thread_id");
               release := release_of kwargs;
               metadata := md |} w1).2.
Proof.
  unfold wrapper, bind, lift.
  pose proof (await_call_run func args kwargs w) as Hawait.
  destruct (await_call func args kwargs w) as [[results|e] w1]; [| done].
  destruct Hawait as [_ Hcall]. rewrite Hcall.
  destruct (match results with VDict d => _ | _ => _ end) as [addition|e];
    [| done].
  destruct (args !! 1%nat) as [request|] eqn:Hreq;
    [| by unfold extract; rewrite Hreq].
  destruct (extract_lookup args request Hreq) as (md & -> & Hmd).
  rewrite !dict_get_default, !Hmd. simpl decide. cbn iota.
  unfold release_of, default_service_metadata.
  destruct (kwargs !! "service_metadata") as [[| | |sm|attrs]|] eqn:Hsm;
    simpl; try done.
  - rewrite (dict_get_default sm "pipes_metadata").
    destruct (sm !! "pipes_metadata") as [[| | |pipes|]|]; simpl; try done.
    intros [= <- <-]. exists w1, request. eexists. do 2 (split; [done |]).
    by rewrite (dict_get_default sm "service_version").
  - by case_bool_decide.
  - intros [= <- <-]. exists w1, request. by eexists.
Qed.

End TraceMetadataMore.

(** X12. With fewer than two positional arguments (the decorated function
    of the docstring, called without arguments, is such a call), when the
    call of the callable can be awaited and returns a result whose metadata
    the wrapper can read (any result that is not a dict, or a dict whose
    [metadata], if any, is a dict), the wrapper raises [IndexError]: it
    does so after the callable has run to its end, and pushes nothing. *)
Theorem wrapper_short_args_index_error (func : callable)
  (args : list pyval) (kwargs : gmap string pyval) (w : world)
  (results : pyval) (w1 : world) :
  awaitable func = true ->
  call func args kwargs w = (Return results, w1) ->
  result_metadata_ok results = true ->
  (length args < 2)%nat ->
  call (trace_metadata func) args kwargs w = (Raise IndexError, w1).
Proof.
  intros Haw Hcall Hres Hlen. simpl.
  unfold trace_metadata.wrapper, bind, lift.
  rewrite (await_call_awaitable func args kwargs Haw), Hcall.
  rewrite (addition_of_results results Hres).
  unfold trace_metadata.extract.
  by rewrite (proj2 (lookup_ge_None args 1%nat)) by lia.
Qed.

(** The function of the docstring: no argument at all. *)
Lemma wrapper_short_args_index_error_witness :
  call (trace_metadata (const_callable true (VStr "Mock"))) [] ∅
    (fresh_world false)
  = (Raise IndexError, fresh_world false).
Proof.
  apply (wrapper_short_args_index_error (const_callable true (VStr "Mock"))
           [] ∅ (fresh_world false) (VStr "Mock") (fresh_world false));
    [reflexivity | reflexivity | reflexivity | simpl; lia].
Defined.

(** X13. The keys of the pushed metadata are "mdl_hash", "project_id" and
    the keys of the result's metadata and of the pipes metadata, no other:
    the thread and user identifiers of the request never enter the metadata
    through the wrapper. *)
Theorem wrapper_metadata_keys (func : callable)
  (args : list pyval) (kwargs : gmap string pyval) (w : world)
  (out : pyval) (w2 : world) :
  call (trace_metadata func) args kwargs w = (Return out, w2) ->
  exists upd,
    last (trace_updates w2) = Some upd /\
    dom (metadata upd)
    = {[ "mdl_hash"; "project_id" ]} ∪ dom (result_metadata out)
      ∪ dom (pipes_metadata_of kwargs).
Proof.
  intros Hret. pose proof (wrapper_run func args kwargs w) as Hrun.
  simpl in Hret. rewrite Hret in Hrun.
  destruct Hrun as (w1 & request & rel & Hcall & Hreq & ->).
  eexists. split; [apply last_snoc |]. simpl.
  rewrite !dom_insert_L, dom_union_L.
  apply set_eq. intros k.
  rewrite !elem_of_union, !elem_of_singleton. tauto.
Qed.

(** The request of the example has no "thread_id" or "user_id", and neither
    have the two metadata mappings: five keys are pushed. *)
Lemma wrapper_metadata_keys_witness :
  exists upd,
    last (trace_updates
            (call (trace_metadata (const_callable true example_results))
               example_args example_kwargs (fresh_world false)).2) = Some upd /\
    ("thread_id" ∉ dom (metadata upd)) /\
    "llm" ∈ dom (metadata upd).
Proof.
  destruct (wrapper_metadata_keys (const_callable true example_results)
              example_args example_kwargs (fresh_world false)
              example_results _ eq_refl) as (upd & Hlast & Hdom).
  exists upd. split; [exact Hlast |]. rewrite Hdom.
  split; [| by vm_compute].
  by vm_compute.
Defined.

(** X14. A result that is a dict whose "metadata" entry is present but is
    not a mapping ([None], a number, an object) makes the wrapper raise
    [TypeError] after the callable has run: the default of
    [results.get("metadata", {})] covers a missing key only.  Nothing is
    pushed. *)
Theorem wrapper_bad_result_metadata (func : callable)
  (args : list pyval) (kwargs : gmap string pyval) (w : world)
  (d : gmap string pyval) (v : pyval) (w1 : world) :
  call func args kwargs w = (Return (VDict d), w1) ->
  d !! "metadata" = Some v ->
  not_iterable v = true ->
  call (trace_metadata func) args kwargs w = (Raise TypeError, w1).
Proof.
  intros Hcall Hmeta Hv. simpl.
  unfold trace_metadata.wrapper, await_call, bind, lift.
  destruct (awaitable func); rewrite Hcall; [| done].
  rewrite dict_get_default, Hmeta. simpl.
  by destruct v.
Qed.

Lemma wrapper_bad_result_metadata_witness :
  call (trace_metadata (const_callable true (VDict {[ "metadata" := VNone ]})))
    example_args example_kwargs (fresh_world false)
  = (Raise TypeError, fresh_world false).
Proof.
  apply (wrapper_bad_result_metadata
           (const_callable true (VDict {[ "metadata" := VNone ]}))
           example_args example_kwargs (fresh_world false)
           {[ "metadata" := VNone ]} VNone (fresh_world false));
    reflexivity.
Defined.

(** X15. On a call with a request at index 1 whose callable returns a
    result with readable metadata (any result that is not a dict, or a dict
    whose [metadata], if any, is a dict), a [service_metadata] keyword
    argument that is a dict without a "pipes_metadata" entry makes the
    wrapper raise [TypeError] after the callable has run; the empty default
    only stands in for a missing [service_metadata].  Nothing is pushed. *)
Theorem wrapper_missing_pipes_metadata (func : callable)
  (args : list pyval) (kwargs : gmap string pyval) (w : world)
  (results request : pyval) (sm : gmap string pyval) (w1 : world) :
  call func args kwargs w = (Return results, w1) ->
  result_metadata_ok results = true ->
  args !! 1%nat = Some request ->
  kwargs !! "service_metadata" = Some (VDict sm) ->
  sm !! "pipes_metadata" = None ->
  call (trace_metadata func) args kwargs w = (Raise TypeError, w1).
Proof.
  intros Hcall Hres Hreq Hsm Hpipes. simpl.
  unfold trace_metadata.wrapper, await_call, bind, lift.
  destruct (awaitable func); rewrite Hcall; [| done].
  rewrite (addition_of_results results Hres).
  destruct (extract_lookup args request Hreq) as (md & -> & _).
  rewrite (dict_get_default kwargs), Hsm. simpl.
  by rewrite (dict_get_default sm "pipes_metadata"), Hpipes.
Qed.

Lemma wrapper_missing_pipes_metadata_witness :
  call (trace_metadata (const_callable true example_results)) example_args
    {[ "service_metadata" := VDict {[ "service_version" := VStr "0.8" ]} ]}
    (fresh_world false)
  = (Raise TypeError, fresh_world false).
Proof.
  apply (wrapper_missing_pipes_metadata (const_callable true example_results)
           example_args _ (fresh_world false) example_results example_request
           {[ "service_version" := VStr "0.8" ]} (fresh_world false));
    reflexivity.
Defined.

(** X16. Whenever the wrapper returns, the update it has pushed carries as
    release tag the [service_version] of [service_metadata] ([None] when
    that dict has none) and the empty string when the call has no
    [service_metadata]; its user is the request's [user_id] and its session
    the request's [thread_id], [None] for an attribute the request lacks. *)
Theorem wrapper_release_and_identity (func : callable)
  (args : list pyval) (kwargs : gmap string pyval) (w : world)
  (out : pyval) (w2 : world) :
  call (trace_metadata func) args kwargs w = (Return out, w2) ->
  exists request upd,
    args !! 1%nat = Some request /\
    last (trace_updates w2) = Some upd /\
    release upd = release_of kwargs /\
    user_id upd = default VNone (getattr request "user_id") /\
    session_id upd = default VNone (getattr request "thread_id").
Proof.
  intros Hret. simpl in Hret.
  destruct (wrapper_run_release func args kwargs w out w2 Hret)
    as (w1 & request & md & Hcall & Hreq & ->).
  exists request. eexists. split; [done |].
  split; [apply last_snoc |]. done.
Qed.

Lemma wrapper_release_and_identity_witness :
  exists upd,
    last (trace_updates
            (call (trace_metadata (const_callable true example_results))
               example_args example_kwargs (fresh_world false)).2) = Some upd /\
    release upd = VStr "0.8" /\ user_id upd = VNone.
Proof.
  destruct (wrapper_release_and_identity (const_callable true example_results)
              example_args example_kwargs (fresh_world false)
              example_results _ eq_refl)
    as (request & upd & Hreq & Hlast & Hrel & Huser & _).
  injection Hreq as <-. exists upd. split; [exact Hlast |].
  split; [exact Hrel | exact Huser].
Defined.

(** X17. The wrapper touches the Langfuse context only: whenever it
    returns, the updates pushed before are all still there, followed by one
    new update, and the rest of the world (loggers, settings, clock, log
    lines) is as the callable left it. *)
Theorem wrapper_frame (func : callable)
  (args : list pyval) (kwargs : gmap string pyval) (w : world)
  (out : pyval) (w2 : world) :
  call (trace_metadata func) args kwargs w = (Return out, w2) ->
  exists w1 upd,
    call func args kwargs w = (Return out, w1) /\
    trace_updates w2 = trace_updates w1 ++ [upd] /\
    nameToLevel w2 = nameToLevel w1 /\ loggers w2 = loggers w1 /\
    enable_timer w2 = enable_timer w1 /\ clock w2 = clock w1 /\
    clock_reads w2 = clock_reads w1 /\ log_lines w2 = log_lines w1.
Proof.
  intros Hret. simpl in Hret.
  destruct (wrapper_run_release func args kwargs w out w2 Hret)
    as (w1 & request & md & Hcall & Hreq & ->).
  exists w1. eexists. split; [done |]. by simpl.
Qed.

Lemma wrapper_frame_witness :
  exists upd,
    trace_updates
      (call (trace_metadata (const_callable true example_results))
         example_args example_kwargs (fresh_world false)).2 = [upd].
Proof.
  destruct (wrapper_frame (const_callable true example_results)
              example_args example_kwargs (fresh_world false)
              example_results _ eq_refl)
    as (w1 & upd & Hcall & Hupd & _).
  exists upd. injection Hcall as <-. exact Hupd.
Defined.

(** ** remove_sql_summary_duplicates, continued *)

Section DedupMore.

Context {V : Type} `{Countable V}.

Implicit Types (d : gmap string V) (dicts rest earlier : list (gmap string V)).

Lemma firsts_from_app (l1 : list (gmap string V)) : forall earlier l2,
  firsts_from earlier (l1 ++ l2)
  = firsts_from earlier l1 ++ firsts_from (earlier ++ l1) l2.
Proof.
  induction l1 as [|d l1 IH]; intros earlier l2.
  { by rewrite firsts_from_nil, (right_id_L [] (++) earlier). }
  rewrite <- app_comm_cons, !firsts_from_cons, IH.
  by rewrite <- !(assoc_L (++)).
Qed.

Lemma firsts_from_all_seen rest : forall earlier,
  (forall d, d ∈ rest -> identifier d ∈ identifier <$> earlier) ->
  firsts_from earlier rest = [].
Proof.
  induction rest as [|d rest IH]; intros earlier Hseen; [done |].
  rewrite firsts_from_cons.
  case_decide as Hnew; [exfalso; apply Hnew, Hseen; by left |].
  apply IH. intros d' Hd'. rewrite fmap_app, elem_of_app. left.
  apply Hseen. by right.
Qed.

(** Over records that have both fields the loop only moves on. *)
Lemma dedup_loop_prefix (good : list (gmap string V)) : forall seen unique_dicts rest,
  Forall has_fields good ->
  exists seen' unique_dicts',
    dedup_loop seen unique_dicts (good ++ rest)
    = dedup_loop seen' unique_dicts' rest.
Proof.
  induction good as [|d good IH]; intros seen unique_dicts rest Hgood.
  { by exists seen, unique_dicts. }
  apply Forall_cons in Hgood as [Hd Hgood].
  destruct (has_fields_identifier d Hd) as (sql & summary & Hsql & Hsum & _).
  simpl. unfold getitem. rewrite Hsql, Hsum. simpl.
  case_decide; by apply IH.
Qed.

Lemma first_occurrences_count dicts :
  length (first_occurrences dicts)
  = size (list_to_set (identifier <$> dicts) : gset (option (V * V))).
Proof.
  rewrite <- (length_fmap identifier (first_occurrences dicts)).
  rewrite <- (size_list_to_set (C:=gset (option (V * V))))
    by apply (proj1 (firsts_from_fresh dicts [])).
  f_equal. apply set_eq. intros x. rewrite !elem_of_list_to_set. split.
  - intros (d & -> & Hd)%list_elem_of_fmap. apply list_elem_of_fmap_2.
    by apply (sublist_subseteq _ _ (firsts_from_sublist dicts [])).
  - intros (d & -> & Hd)%list_elem_of_fmap.
    exact (firsts_from_covers dicts [] d Hd).
Qed.

End DedupMore.

(** X18. Records whose pair has been met already add nothing: when every
    record of [l2] has the pair of some record of [l1], the helper returns
    on [l1 ++ l2] what it returns on [l1]; in particular a list followed by
    itself gives the result of the list. *)
Theorem remove_sql_summary_duplicates_append_seen
  {V : Type} `{Countable V} (l1 l2 : list (gmap string V)) :
  Forall has_fields l1 ->
  Forall has_fields l2 ->
  (forall d, d ∈ l2 -> identifier d ∈ identifier <$> l1) ->
  remove_sql_summary_duplicates (l1 ++ l2) = remove_sql_summary_duplicates l1.
Proof.
  intros Hl1 Hl2 Hseen.
  rewrite !remove_runs by (by try apply Forall_app_2).
  rewrite !first_occurrences_firsts_from, firsts_from_app.
  rewrite (firsts_from_all_seen l2 ([] ++ l1)) by done.
  by rewrite (right_id_L [] (++)).
Qed.

Lemma remove_sql_summary_duplicates_append_seen_witness :
  remove_sql_summary_duplicates (example_dicts ++ [example_repeat])
  = remove_sql_summary_duplicates example_dicts.
Proof.
  apply remove_sql_summary_duplicates_append_seen.
  - unfold example_dicts.
    repeat (apply Forall_cons_2; [split; by eexists |]). apply Forall_nil_2.
  - apply Forall_cons_2; [split; by eexists | apply Forall_nil_2].
  - intros d Hd. apply list_elem_of_singleton in Hd as ->. by left.
Defined.

(** X19. A list without two records of the same pair comes back as it is:
    the same records in the same order. *)
Theorem remove_sql_summary_duplicates_distinct_unchanged
  {V : Type} `{Countable V} (dicts : list (gmap string V)) :
  Forall has_fields dicts ->
  NoDup (identifier <$> dicts) ->
  remove_sql_summary_duplicates dicts = Return dicts.
Proof.
  intros Hall Hnd. rewrite remove_runs by done. f_equal.
  rewrite first_occurrences_firsts_from. by apply firsts_from_distinct.
Qed.

Lemma remove_sql_summary_duplicates_distinct_unchanged_witness :
  remove_sql_summary_duplicates example_distinct = Return example_distinct.
Proof.
  apply remove_sql_summary_duplicates_distinct_unchanged.
  - unfold example_distinct.
    repeat (apply Forall_cons_2; [split; by eexists |]). apply Forall_nil_2.
  - apply (bool_decide_unpack (NoDup (identifier <$> example_distinct))).
    by vm_compute.
Defined.

(** X20. The helper returns as many records as the input has distinct
    (sql, summary) pairs, hence never more than it was given. *)
Theorem remove_sql_summary_duplicates_count
  {V : Type} `{Countable V} (dicts : list (gmap string V)) :
  Forall has_fields dicts ->
  exists out,
    remove_sql_summary_duplicates dicts = Return out /\
    length out
    = size (list_to_set (identifier <$> dicts) : gset (option (V * V))) /\
    (length out <= length dicts)%nat.
Proof.
  intros Hall. exists (first_occurrences dicts).
  split; [by apply remove_runs |]. split; [apply first_occurrences_count |].
  apply sublist_length. rewrite first_occurrences_firsts_from.
  apply firsts_from_sublist.
Qed.

Lemma remove_sql_summary_duplicates_count_witness :
  exists out,
    remove_sql_summary_duplicates example_dicts = Return out /\
    length out = 2%nat.
Proof.
  assert (Hall : Forall has_fields example_dicts).
  { unfold example_dicts.
    repeat (apply Forall_cons_2; [split; by eexists |]). apply Forall_nil_2. }
  destruct (remove_sql_summary_duplicates_count example_dicts Hall)
    as (out & Hout & Hlen & _).
  exists out. split; [exact Hout |]. rewrite Hlen. by vm_compute.
Defined.

(** X21. The error names the field the first incomplete record lacks:
    after records that have both fields, a record without [sql] makes the
    helper raise [KeyError] for "sql" (with or without a [summary]), and a
    record with [sql] but without [summary] makes it raise [KeyError] for
    "summary", whatever follows. *)
Theorem remove_sql_summary_duplicates_first_incomplete
  {V : Type} `{Countable V} (good rest : list (gmap string V))
  (bad : gmap string V) :
  Forall has_fields good ->
  (bad !! "sql" = None ->
   remove_sql_summary_duplicates (good ++ bad :: rest)
   = Raise (KeyError "sql")) /\
  (is_Some (bad !! "sql") -> bad !! "summary" = None ->
   remove_sql_summary_duplicates (good ++ bad :: rest)
   = Raise (KeyError "summary")).
Proof.
  intros Hgood. unfold remove_sql_summary_duplicates.
  destruct (dedup_loop_prefix good ∅ [] (bad :: rest) Hgood)
    as (seen & unique_dicts & ->).
  simpl. unfold getitem. split.
  - by intros ->.
  - intros [sql ->] ->. done.
Qed.

Lemma remove_sql_summary_duplicates_first_incomplete_witness :
  remove_sql_summary_duplicates
    (example_dicts ++ example_no_sql :: [example_incomplete])
  = Raise (KeyError "sql") /\
  remove_sql_summary_duplicates
    (example_dicts ++ example_incomplete :: [example_no_sql])
  = Raise (KeyError "summary").
Proof.
  assert (Hall : Forall has_fields example_dicts).
  { unfold example_dicts.
    repeat (apply Forall_cons_2; [split; by eexists |]). apply Forall_nil_2. }
  split.
  - apply (proj1 (remove_sql_summary_duplicates_first_incomplete
                    example_dicts [example_incomplete] example_no_sql Hall)).
    reflexivity.
  - apply (proj2 (remove_sql_summary_duplicates_first_incomplete
                    example_dicts [example_no_sql] example_incomplete Hall));
      [by eexists | reflexivity].
Defined.
